(** * A shallow embedding of [index.js]

    The server is a set of Express routes over one SQLite connection.  The
    embedding keeps that shape:

    - JavaScript values, request and response objects ([Js], [Express]);
    - the SQLite connection as an explicit state, with the two tables of the
      [CREATE TABLE] script ([Sqlite]) and one function per SQL statement of
      the source;
    - the middleware and the eight handlers, state passing, and [app], which
      serves one request.

    Strings are byte strings (UTF-8).  IEEE doubles are kept symbolic: the
    arithmetic of SQLite's REAL values, the password hash of [bcrypt] and the
    filter of [xss] are functions of the libraries the source calls, the
    fields of the class [Libraries]. *)

From stdpp Require Import base strings gmap list pretty.
From Stdlib Require Import ZArith Ascii Lia.

Set Warnings "-register-all".
Open Scope Z_scope.

(** ** JavaScript values *)

Module Js.

(** A REAL that is not an integer is never computed with, only carried:
    it is named by where it came from. *)
Inductive real : Type :=
  | RLit (neg : bool) (digits : string)  (* sqlite3AtoF of a digit string *)
  | RNum (n : Z)                         (* the double of the JS number n *)
  | ROther (text : string).              (* a fraction, an exponent *)

Inductive value : Type :=
  | VUndefined
  | VNull
  | VBool (b : bool)
  | VNum (n : Z)                         (* an integer-valued number *)
  | VReal (r : real)
  | VStr (s : string)
  | VArr (xs : list value)
  | VObj (fields : list (string * value)).

(** [o.k] on the parsed body or query object: [undefined] when absent. *)
Definition prop (o : gmap string value) (k : string) : value :=
  default VUndefined (o !! k).

(** An exception value: only [error.message] is ever read. *)
Record Error : Type := mkError { message : string }.

End Js.
Import Js.

(** ** Express: request, response, middleware chain *)

Module Express.

Record Request : Type := mkRequest {
  headers : gmap string string;          (* keys lower-cased by Node *)
  params  : gmap string string;
  query   : gmap string value;
  body    : gmap string value
}.

(** What [res.json] puts on the wire: [JSON.stringify(undefined)] is
    [undefined], and Express then ends the response with no body. *)
Inductive payload : Type :=
  | Empty
  | Json (v : value)
  | ErrorPage.                           (* the page of the error handler *)

Record Response : Type := mkResponse {
  statusCode : Z;
  sent       : option payload
}.

(** The response object a handler receives. *)
Definition fresh : Response := mkResponse 200 None.

Definition status (code : Z) (res : Response) : Response :=
  mkResponse code (sent res).

Definition json (v : value) (res : Response) : Response :=
  mkResponse (statusCode res)
    (Some match v with VUndefined => Empty | _ => Json v end).

(** A middleware either answers or calls [next()]. *)
Inductive flow : Type :=
  | Next
  | Answered (res : Response).

(** An exception that leaves a handler reaches Express's default error
    handler, which answers 500. *)
Definition uncaught (e : Error) (res : Response) : Response :=
  mkResponse 500 (Some ErrorPage).

End Express.
Import Express.

(** ** The access gate (index.js, lines 39-46) *)

Definition authMiddleware (req : Request) (res : Response) : flow :=
  if bool_decide (headers req !! "authorization" = Some "Bearer valid_token")
  then Next
  else Answered (json (VObj [("error", VStr "Não autorizado")]) (status 401 res)).

(** [app.get(path, mw, handler)]: the handler runs only after [next()]. *)
Definition guarded {S : Type} (mw : Request -> Response -> flow)
    (handler : Request -> Response -> S -> Response * S)
    (req : Request) (res : Response) (st : S) : Response * S :=
  match mw req res with
  | Next => handler req res st
  | Answered res' => (res', st)
  end.

(** ** The SQLite connection *)

Module Sqlite.

Inductive sqlval : Type :=
  | SNull
  | SInt (z : Z)
  | SReal (r : real)
  | SText (s : string).

(** The two tables of the [CREATE TABLE] script (lines 17-29). *)
Record User : Type := mkUser {
  u_id       : Z;                        (* INTEGER PRIMARY KEY AUTOINCREMENT *)
  u_username : sqlval;                   (* TEXT UNIQUE *)
  u_password : sqlval                    (* TEXT *)
}.

Record Post : Type := mkPost {
  p_id      : Z;                         (* INTEGER PRIMARY KEY AUTOINCREMENT *)
  p_user_id : sqlval;                    (* INTEGER, FOREIGN KEY -> users(id) *)
  p_content : sqlval                     (* TEXT *)
}.

(** The state behind [sqliteDb].  [foreign_keys] is the connection's
    [PRAGMA foreign_keys]; no statement of the source writes it. *)
Record Conn : Type := mkConn {
  users        : list User;
  posts        : list Post;
  seq_users    : Z;                      (* sqlite_sequence, AUTOINCREMENT *)
  seq_posts    : Z;
  foreign_keys : bool
}.

(** The connection that line 4 opens on the database file and lines 17-29
    prepare: [require('better-sqlite3')('database.sqlite')], with no
    option and no PRAGMA anywhere in the source.  A connection of
    better-sqlite3 enforces foreign keys unless told otherwise, so
    [foreign_keys] is on.  The file may hold the rows of earlier runs. *)
Definition sqliteDb (us : list User) (ps : list Post) (su sp : Z) : Conn :=
  mkConn us ps su sp true.

Definition int64_max : Z := 2 ^ 63 - 1.
Definition int64_min : Z := - 2 ^ 63.
Definition is_int64 (z : Z) : bool := (int64_min <=? z) && (z <=? int64_max).

(** *** Decimal integer numerals: an optional sign, then digits *)

Definition is_digit (a : ascii) : bool :=
  let n := Z.of_nat (nat_of_ascii a) in (48 <=? n) && (n <=? 57).

Fixpoint all_digits (s : string) : bool :=
  match s with
  | EmptyString => true
  | String a r => is_digit a && all_digits r
  end.

Fixpoint digits_value (acc : Z) (s : string) : Z :=
  match s with
  | EmptyString => acc
  | String a r => digits_value (10 * acc + (Z.of_nat (nat_of_ascii a) - 48)) r
  end.

(** [Some (neg, digits)] when [s] is [-digits], [+digits] or [digits],
    with at least one digit. *)
Definition numeral (s : string) : option (bool * string) :=
  let '(neg, d) :=
    match s with
    | String "-" r => (true, r)
    | String "+" r => (false, r)
    | _ => (false, s)
    end in
  match d with
  | EmptyString => None
  | _ => if all_digits d then Some (neg, d) else None
  end.

(** An integer literal of SQL text, under a unary minus when [negFlag]
    (SQLite's codeInteger): a 64-bit integer when it fits, else a REAL. *)
Definition codeInteger (digits : string) (negFlag : bool) : sqlval :=
  let m := digits_value 0 digits in
  if m <=? int64_max then SInt (if negFlag then - m else m)
  else if (m =? 2 ^ 63) && negFlag then SInt int64_min
  else SReal (RLit negFlag digits).

(** The expression that [${userId}] contributes to the text of
    [SELECT * FROM posts WHERE user_id = ${userId}]: the model covers the
    numeral fragment of SQL expressions, [None] is any other text. *)
Definition interpolated_expr (text : string) : option sqlval :=
  match numeral text with
  | Some (neg, d) => Some (codeInteger d neg)
  | None => None
  end.

End Sqlite.
Import Sqlite.

(** ** What the libraries compute *)

(** The functions of SQLite, better-sqlite3, bcrypt and xss that the
    handlers rely on and the model does not compute. *)
Class Libraries : Type := {
  (** SQLite's comparison of two REALs, and of a REAL with an INTEGER. *)
  real_eqb : real -> real -> bool;
  real_eq_int : real -> Z -> bool;
  (** The text SQLite renders a REAL with, in a column of TEXT affinity. *)
  real_text : real -> string;
  (** The integer a REAL is stored as in a column of INTEGER affinity,
      when the conversion loses nothing. *)
  real_as_int : real -> option Z;
  (** NUMERIC affinity on a text that is not a decimal integer numeral: a
      REAL or an INTEGER for the other numeric forms, else the text. *)
  numeric_other : string -> sqlval;
  (** The JS number better-sqlite3 returns for an INTEGER beyond 2^53. *)
  int_to_number : Z -> Z;
  (** better-sqlite3 given, among the arguments of [run], [get] or [all],
      anything but numbers, strings and null. *)
  bind_other1 : value -> Error + sqlval;
  bind_other2 : value -> value -> Error + sqlval * sqlval;
  (** [bcrypt]'s digest of a string, for a number of rounds and the salt
      it draws, and the error it rejects any other data with. *)
  bcrypt_hash : string -> Z -> string -> string;
  bcrypt_reject : value -> Error;
  (** The [xss] filter on a string, and [xss] on any other value the
      body carries, which it first turns into a string: that step throws
      when the value has no callable [toString]. *)
  xss_string : string -> string;
  xss_other : value -> Error + string;
  (** GET /posts/insecure outside the numeral fragment: what [prepare] and
      [all] make of the SELECT that the [userId] was interpolated into, a
      throw or the array of rows. *)
  select_other : value -> Conn -> Error + value
}.

(** Stand-ins, to run the model on examples. *)
Definition sample : Libraries := {|
  real_eqb := fun _ _ => false;
  real_eq_int := fun _ _ => false;
  real_text := fun _ => "0.0";
  real_as_int := fun _ => None;
  numeric_other := SText;
  int_to_number := fun z => z;
  bind_other1 := fun _ => inl (mkError "TypeError");
  bind_other2 := fun _ _ => inl (mkError "TypeError");
  bcrypt_hash := fun p rounds salt => "$2b$" +:+ pretty rounds +:+ "$" +:+ salt;
  bcrypt_reject := fun _ => mkError "Error";
  xss_string := fun _ => "";
  xss_other := fun _ => inr "";
  select_other := fun _ _ => inl (mkError "SqliteError")
|}.

(** Requests and database files for the examples. *)
Definition request_user (id : string) (authorization : option string)
    : Request :=
  mkRequest (from_option (fun h => {[ "authorization" := h ]}) ∅ authorization)
    {[ "id" := id ]} ∅ ∅.

Definition request_register (username password : string) : Request :=
  mkRequest ∅ ∅ ∅
    {[ "username" := VStr username; "password" := VStr password ]}.

Definition request_post (userId : value) (content : string) : Request :=
  mkRequest ∅ ∅ ∅ {[ "userId" := userId; "content" := VStr content ]}.

Definition request_posts (userId : string) : Request :=
  mkRequest ∅ ∅ {[ "userId" := VStr userId ]} ∅.

Definition db_empty : Conn := sqliteDb [] [] 0 0.

Definition alice : User := mkUser 1 (SText "alice") (SText "pw123").

Definition db_alice : Conn := sqliteDb [alice] [] 1 0.

Definition img : string := "<img src=x onerror=alert(1)>".

Definition db_alice_img : Conn :=
  sqliteDb [alice] [mkPost 1 (SInt 1) (SText img)] 1 1.

Definition request_body (fields : gmap string value) : Request :=
  mkRequest ∅ ∅ ∅ fields.

Definition request_no_password : Request :=
  request_body {[ "username" := VStr "bob" ]}.

Definition request_null_username : Request :=
  request_body {[ "username" := VNull; "password" := VStr "pw" ]}.

(** After a post through the secure route, with the stand-in filter. *)
Definition db_alice_clean : Conn :=
  sqliteDb [alice] [mkPost 1 (SInt 1) (SText "")] 1 1.

(** The same file, the enforcement of foreign keys written out. *)
Definition db_alice_enforcing : Conn := mkConn [alice] [] 1 0 true.

(** ** The statements and the handlers *)

Section Server.

Context {L : Libraries}.

(** *** Binding JavaScript values to parameters *)

(** A number goes in as a double, a string as text. *)
Definition bind_value (v : value) : option sqlval :=
  match v with
  | VNull => Some SNull
  | VNum n => Some (SReal (RNum n))
  | VReal r => Some (SReal r)
  | VStr s => Some (SText s)
  | _ => None
  end.

Definition bind1 (a : value) : Error + sqlval :=
  match bind_value a with
  | Some x => inr x
  | None => bind_other1 a
  end.

Definition bind2 (a b : value) : Error + sqlval * sqlval :=
  match bind_value a, bind_value b with
  | Some x, Some y => inr (x, y)
  | _, _ => bind_other2 a b
  end.

(** *** Column affinity and comparison *)

Definition text_numeric (s : string) : sqlval :=
  match numeral s with
  | Some (neg, d) =>
      let m := digits_value 0 d in
      let z := if neg then - m else m in
      if is_int64 z then SInt z else SReal (RLit neg d)
  | None => numeric_other s
  end.

(** NUMERIC affinity, as applied to the operand compared with a column of
    INTEGER affinity. *)
Definition numeric_affinity (v : sqlval) : sqlval :=
  match v with
  | SText s => text_numeric s
  | _ => v
  end.

(** INTEGER affinity, on storing into [posts.user_id].  A REAL becomes
    an INTEGER only strictly inside the 64-bit range. *)
Definition integer_affinity (v : sqlval) : sqlval :=
  match v with
  | SText s => text_numeric s
  | SReal (RNum n) =>
      if (int64_min <? n) && (n <? int64_max) then SInt n else v
  | SReal r => match real_as_int r with Some z => SInt z | None => v end
  | _ => v
  end.

(** TEXT affinity, on storing into [username], [password], [content]. *)
Definition text_affinity (v : sqlval) : sqlval :=
  match v with
  | SInt z => SText (pretty z)
  | SReal r => SText (real_text r)
  | _ => v
  end.

(** [a = b] in a WHERE clause: NULL and a class mismatch select nothing. *)
Definition sql_eq (a b : sqlval) : bool :=
  match a, b with
  | SInt x, SInt y => x =? y
  | SInt x, SReal r | SReal r, SInt x => real_eq_int r x
  | SReal r, SReal r' => real_eqb r r'
  | SText s, SText t => bool_decide (s = t)
  | _, _ => false
  end.

(** What better-sqlite3 hands back for a column. *)
Definition to_js (v : sqlval) : value :=
  match v with
  | SNull => VNull
  | SInt z => VNum (if Z.abs z <=? 2 ^ 53 then z else int_to_number z)
  | SReal r => VReal r
  | SText s => VStr s
  end.

Definition user_row (u : User) : value :=
  VObj [("id", to_js (SInt (u_id u))); ("username", to_js (u_username u));
        ("password", to_js (u_password u))].

Definition user_public_row (u : User) : value :=
  VObj [("id", to_js (SInt (u_id u))); ("username", to_js (u_username u))].

Definition post_row (p : Post) : value :=
  VObj [("id", to_js (SInt (p_id p))); ("user_id", to_js (p_user_id p));
        ("content", to_js (p_content p))].

(** AUTOINCREMENT: one more than the largest rowid ever used.  Rowids are
    mathematical integers here: the 2^63 insertions that exhaust them are
    outside the model. *)
Definition max_id (ids : list Z) : Z := foldr Z.max 0 ids.

Definition next_rowid (ids : list Z) (seq : Z) : Z :=
  Z.max (max_id ids) seq + 1.

(** *** The statements of the source, one function each *)

(** The row [WHERE id = ?] selects for [get]: the first match, if any. *)
Definition find_user (key : sqlval) (c : Conn) : option User :=
  List.find (fun u => sql_eq (SInt (u_id u)) (numeric_affinity key)) (users c).

(** [prepare('SELECT * FROM users WHERE id = ?').get(a)], line 34. *)
Definition select_user_star (a : value) (c : Conn) : Error + value :=
  match bind1 a with
  | inl e => inl e
  | inr key => inr (from_option user_row VUndefined (find_user key c))
  end.

(** [prepare('SELECT id, username FROM users WHERE id = ?').get(a)],
    line 49. *)
Definition select_user_public (a : value) (c : Conn) : Error + value :=
  match bind1 a with
  | inl e => inl e
  | inr key => inr (from_option user_public_row VUndefined (find_user key c))
  end.

(** UNIQUE on [username]: NULLs never collide. *)
Definition unique_conflict (v : sqlval) (rows : list User) : bool :=
  match v with
  | SNull => false
  | _ => existsb (fun u => sql_eq (u_username u) v) rows
  end.

(** [prepare('INSERT INTO users (username, password) VALUES (?, ?)')
    .run(a, b)], lines 58 and 70. *)
Definition insert_user (a b : value) (c : Conn) : Error + Conn :=
  match bind2 a b with
  | inl e => inl e
  | inr (u, p) =>
      let i := next_rowid (u_id <$> users c) (seq_users c) in
      if unique_conflict (text_affinity u) (users c)
      then inl (mkError "UNIQUE constraint failed: users.username")
      else inr (mkConn
             (users c ++ [mkUser i (text_affinity u) (text_affinity p)])
             (posts c) i (seq_posts c) (foreign_keys c))
  end.

(** The rows [WHERE user_id = v] selects for [all], in table order. *)
Definition posts_where (v : sqlval) (c : Conn) : list Post :=
  List.filter (fun p => sql_eq (p_user_id p) v) (posts c).

(** What a template literal makes of a scalar. *)
Definition template_text (v : value) : option string :=
  match v with
  | VUndefined => Some "undefined"
  | VNull => Some "null"
  | VBool b => Some (if b then "true" else "false")
  | VNum n => if Z.abs n <? 10 ^ 21 then Some (pretty n) else None
  | VStr s => Some s
  | _ => None
  end.

(** [prepare(`SELECT * FROM posts WHERE user_id = ${userId}`).all()],
    line 81; [None] when the text leaves the modelled fragment. *)
Definition select_posts_interpolated (userId : value) (c : Conn)
    : option value :=
  text ← template_text userId;
  v ← interpolated_expr text;
  Some (VArr (post_row <$> posts_where v c)).

(** [prepare('SELECT * FROM posts WHERE user_id = ?').all(a)], line 88. *)
Definition select_posts_param (a : value) (c : Conn) : Error + value :=
  match bind1 a with
  | inl e => inl e
  | inr key => inr (VArr (post_row <$> posts_where (numeric_affinity key) c))
  end.

(** The declared FOREIGN KEY, checked only on a connection that enforces
    foreign keys: a non-NULL [user_id] needs a parent row. *)
Definition fk_violation (v : sqlval) (c : Conn) : bool :=
  foreign_keys c &&
  match v with
  | SNull => false
  | _ => negb (existsb (fun u => sql_eq (SInt (u_id u)) v) (users c))
  end.

(** [prepare('INSERT INTO posts (user_id, content) VALUES (?, ?)')
    .run(a, b)], lines 96 and 104. *)
Definition insert_post (a b : value) (c : Conn) : Error + Conn :=
  match bind2 a b with
  | inl e => inl e
  | inr (uid, txt) =>
      let i := next_rowid (p_id <$> posts c) (seq_posts c) in
      if fk_violation (integer_affinity uid) c
      then inl (mkError "FOREIGN KEY constraint failed")
      else inr (mkConn (users c)
             (posts c ++ [mkPost i (integer_affinity uid) (text_affinity txt)])
             (seq_users c) i (foreign_keys c))
  end.

(** [xss(content)], line 103. *)
Definition xss (content : value) : Error + string :=
  match content with
  | VStr s => inr (xss_string s)
  | _ => xss_other content
  end.

(** [bcrypt.hash(data, 10)] with the salt it drew. *)
Definition bcrypt_hash_value (data : value) (rounds : Z) (salt : string)
    : Error + string :=
  match data with
  | VStr s => inr (bcrypt_hash s rounds salt)
  | _ => inl (bcrypt_reject data)
  end.

(** *** The handlers *)

Definition param (req : Request) (k : string) : value :=
  match params req !! k with
  | Some s => VStr s
  | None => VUndefined
  end.

Definition success : value := VObj [("success", VBool true)].
Definition failure (e : Error) : value := VObj [("error", VStr (message e))].

(** GET /user/:id, lines 32-36. *)
Definition get_user (req : Request) (res : Response) (c : Conn)
    : Response * Conn :=
  match select_user_star (param req "id") c with
  | inl e => (uncaught e res, c)
  | inr user => (json user res, c)
  end.

(** GET /user/:id/secure, lines 48-51: the handler behind the gate. *)
Definition get_user_secure_handler (req : Request) (res : Response) (c : Conn)
    : Response * Conn :=
  match select_user_public (param req "id") c with
  | inl e => (uncaught e res, c)
  | inr user => (json user res, c)
  end.

Definition get_user_secure : Request -> Response -> Conn -> Response * Conn :=
  guarded authMiddleware get_user_secure_handler.

(** POST /register/insecure, lines 54-63. *)
Definition register_insecure (req : Request) (res : Response) (c : Conn)
    : Response * Conn :=
  let username := prop (body req) "username" in
  let password := prop (body req) "password" in
  match insert_user username password c with
  | inr c' => (json success res, c')
  | inl error => (json (failure error) (status 400 res), c)
  end.

(** POST /register/secure, lines 66-75. *)
Definition register_secure (salt : string)
    (req : Request) (res : Response) (c : Conn) : Response * Conn :=
  let username := prop (body req) "username" in
  let password := prop (body req) "password" in
  match bcrypt_hash_value password 10 salt with
  | inl error => (json (failure error) (status 400 res), c)
  | inr hashedPassword =>
      match insert_user username (VStr hashedPassword) c with
      | inr c' => (json success res, c')
      | inl error => (json (failure error) (status 400 res), c)
      end
  end.

(** GET /posts/insecure, lines 78-83, for a [userId] in the numeral
    fragment; [None] outside it. *)
Definition posts_insecure (req : Request) (res : Response) (c : Conn)
    : option (Response * Conn) :=
  let userId := prop (query req) "userId" in
  posts ← select_posts_interpolated userId c;
  Some (json posts res, c).

(** GET /posts/insecure, lines 78-83, for any [userId].  Outside the
    numeral fragment (no [userId], injected text) the text is still one
    statement that begins with SELECT: [prepare] refuses a second
    statement and [all] a statement that returns no rows, so either the
    call throws, and the error handler answers, or rows are read and sent;
    the connection is not written. *)
Definition posts_insecure_any (req : Request) (res : Response) (c : Conn)
    : Response * Conn :=
  match posts_insecure req res c with
  | Some answer => answer
  | None =>
      match select_other (prop (query req) "userId") c with
      | inl e => (uncaught e res, c)
      | inr posts => (json posts res, c)
      end
  end.

(** GET /posts/secure, lines 86-90. *)
Definition posts_secure (req : Request) (res : Response) (c : Conn)
    : Response * Conn :=
  let userId := prop (query req) "userId" in
  match select_posts_param userId c with
  | inl e => (uncaught e res, c)
  | inr posts => (json posts res, c)
  end.

(** POST /post/insecure, lines 93-98. *)
Definition post_insecure (req : Request) (res : Response) (c : Conn)
    : Response * Conn :=
  let userId := prop (body req) "userId" in
  let content := prop (body req) "content" in
  match insert_post userId content c with
  | inl e => (uncaught e res, c)
  | inr c' => (json success res, c')
  end.

(** POST /post/secure, lines 101-106. *)
Definition post_secure (req : Request) (res : Response) (c : Conn)
    : Response * Conn :=
  let userId := prop (body req) "userId" in
  let content := prop (body req) "content" in
  match xss content with
  | inl e => (uncaught e res, c)
  | inr sanitizedContent =>
      match insert_post userId (VStr sanitizedContent) c with
      | inl e => (uncaught e res, c)
      | inr c' => (json success res, c')
      end
  end.

(** *** The application: one request, one step of the connection *)

Inductive Route : Type :=
  | GET_user
  | GET_user_secure
  | POST_register_insecure
  | POST_register_secure
  | GET_posts_insecure
  | GET_posts_secure
  | POST_post_insecure
  | POST_post_secure.

(** [salt] is the randomness the request consumes (only the secure
    registration does). *)
Definition app (r : Route) (salt : string) (req : Request) (c : Conn)
    : option (Response * Conn) :=
  match r with
  | GET_user => Some (get_user req fresh c)
  | GET_user_secure => Some (get_user_secure req fresh c)
  | POST_register_insecure => Some (register_insecure req fresh c)
  | POST_register_secure => Some (register_secure salt req fresh c)
  | GET_posts_insecure => posts_insecure req fresh c
  | GET_posts_secure => Some (posts_secure req fresh c)
  | POST_post_insecure => Some (post_insecure req fresh c)
  | POST_post_secure => Some (post_secure req fresh c)
  end.

(** The application on every request. *)
Definition serve (r : Route) (salt : string) (req : Request) (c : Conn)
    : Response * Conn :=
  match r with
  | GET_user => get_user req fresh c
  | GET_user_secure => get_user_secure req fresh c
  | POST_register_insecure => register_insecure req fresh c
  | POST_register_secure => register_secure salt req fresh c
  | GET_posts_insecure => posts_insecure_any req fresh c
  | GET_posts_secure => posts_secure req fresh c
  | POST_post_insecure => post_insecure req fresh c
  | POST_post_secure => post_secure req fresh c
  end.

(** [later c c']: the connection goes from [c] to [c'] by serving requests.
    A GET /posts/insecure outside the modelled fragment is still one
    SELECT, which [all] runs without writing: it leaves the connection as
    it is and needs no step of its own. *)
Inductive later : Conn -> Conn -> Prop :=
  | later_now c : later c c
  | later_step c r salt req res c1 c2 :
      app r salt req c = Some (res, c1) -> later c1 c2 -> later c c2.

(** *** Vocabulary of the properties *)

Definition bearer : string := "Bearer valid_token".

Definition unauthorized : Response :=
  mkResponse 401 (Some (Json (VObj [("error", VStr "Não autorizado")]))).

Definition ok_empty : Response := mkResponse 200 (Some Empty).
Definition ok_json (v : value) : Response := mkResponse 200 (Some (Json v)).
Definition bad_request (msg : string) : Response :=
  mkResponse 400 (Some (Json (VObj [("error", VStr msg)]))).

(** The row of [users] that the path parameter [s] selects. *)
Definition selects (s : string) (u : User) : bool :=
  sql_eq (SInt (u_id u)) (text_numeric s).

Definition keys (v : value) : list string :=
  match v with
  | VObj fields => fields.*1
  | _ => []
  end.

(** The two registration routes. *)
Inductive registration : Type :=
  | Insecure
  | Secure (salt : string).

Definition register (k : registration)
    : Request -> Response -> Conn -> Response * Conn :=
  match k with
  | Insecure => register_insecure
  | Secure salt => register_secure salt
  end.

(** The two routes that create a post. *)
Inductive creation : Type :=
  | Raw
  | Sanitized.

Definition create_post (k : creation)
    : Request -> Response -> Conn -> Response * Conn :=
  match k with
  | Raw => post_insecure
  | Sanitized => post_secure
  end.

(** What a registration route hands to the INSERT as the password. *)
Definition stored_form (k : registration) (p : string) : string :=
  match k with
  | Insecure => p
  | Secure salt => bcrypt_hash p 10 salt
  end.

(** The texts in column [username], in table order. *)
Definition username_texts (c : Conn) : list string :=
  omap (fun u => match u_username u with SText s => Some s | _ => None end)
    (users c).

(** The routes that run an INSERT. *)
Definition writes (r : Route) : bool :=
  match r with
  | POST_register_insecure | POST_register_secure
  | POST_post_insecure | POST_post_secure => true
  | _ => false
  end.

(** The status codes a route can answer with: 400 is the [catch] of the
    registrations, 401 is the gate's, 500 is the error handler of Express,
    which any route can end in (the registrations when the request has no
    body to destructure, line 56 and 67 being outside the [try]). *)
Definition statuses (r : Route) : list Z :=
  match r with
  | GET_user => [200; 500]
  | GET_user_secure => [200; 401; 500]
  | POST_register_insecure | POST_register_secure => [200; 400; 500]
  | GET_posts_insecure => [200; 500]
  | GET_posts_secure => [200; 500]
  | POST_post_insecure | POST_post_secure => [200; 500]
  end.

(** What the FOREIGN KEY asks of a stored [user_id]: NULL, or the id of a
    row of [users]. *)
Definition references (v : sqlval) (c : Conn) : Prop :=
  v = SNull \/ Exists (fun u => sql_eq (SInt (u_id u)) v = true) (users c).

Definition error_page : Response := mkResponse 500 (Some ErrorPage).

(** A response whose JSON object has lost its [password] field. *)
Definition without_password (res : Response) : Response :=
  mkResponse (statusCode res)
    match sent res with
    | Some (Json (VObj fields)) =>
        Some (Json (VObj (List.filter
                            (fun kv => negb (bool_decide (kv.1 = "password")))
                            fields)))
    | other => other
    end.

(** A request whose body has the field [k] set to [v]. *)
Definition with_field (k : string) (v : value) (req : Request) : Request :=
  mkRequest (headers req) (params req) (query req) (<[k := v]> (body req)).

(** Rows are only ever appended, and the pragma stays. *)
Definition extends (c c' : Conn) : Prop :=
  (exists us, users c' = users c ++ us) /\
  (exists ps, posts c' = posts c ++ ps) /\
  foreign_keys c' = foreign_keys c.

(** ** Properties *)

(** *** The access gate *)

Lemma authMiddleware_cases (req : Request) (res : Response) :
  authMiddleware req res =
    if bool_decide (headers req !! "authorization" = Some bearer)
    then Next
    else Answered (mkResponse 401
           (Some (Json (VObj [("error", VStr "Não autorizado")])))).
Proof. reflexivity. Qed.

(** C1, as amended: the gate calls [next()] exactly when the Authorization
    header is the string "Bearer valid_token"; for any other value, and
    with no such header, it answers 401 with the body
    [{ error: 'Não autorizado' }], and the guarded handler is not run: the
    answer and the connection are the same whatever the handler is. *)
Theorem authMiddleware_gate (req : Request) (res : Response) :
  (authMiddleware req res = Next <->
     headers req !! "authorization" = Some bearer) /\
  (headers req !! "authorization" <> Some bearer ->
     authMiddleware req res = Answered unauthorized /\
     forall (S : Type) (handler : Request -> Response -> S -> Response * S)
            (st : S),
       guarded authMiddleware handler req res st = (unauthorized, st)).
Proof.
  rewrite authMiddleware_cases. unfold guarded.
  rewrite authMiddleware_cases.
  case_bool_decide as Hh; split.
  - tauto.
  - intros Hne. contradiction.
  - split; [discriminate | intros E; contradiction].
  - intros _. split; [reflexivity | intros; reflexivity].
Qed.

(** With the header the guarded handler is what runs. *)
Lemma guarded_admits {S : Type}
    (handler : Request -> Response -> S -> Response * S)
    (req : Request) (res : Response) (st : S) :
  headers req !! "authorization" = Some bearer ->
  guarded authMiddleware handler req res st = handler req res st.
Proof.
  intros Hh. unfold guarded. rewrite authMiddleware_cases.
  rewrite bool_decide_eq_true_2 by exact Hh. reflexivity.
Qed.

(** *** Looking a user up *)

Lemma bind1_string (s : string) : bind1 (VStr s) = inr (SText s).
Proof. reflexivity. Qed.

Lemma find_user_text (s : string) (c : Conn) :
  find_user (SText s) c = List.find (selects s) (users c).
Proof. reflexivity. Qed.

Lemma find_none_Forall {A : Type} (f : A -> bool) (l : list A) :
  Forall (fun x => f x = false) l -> List.find f l = None.
Proof.
  induction 1 as [|x l Hx _ IH]; simpl; [reflexivity|].
  rewrite Hx. exact IH.
Qed.

Lemma find_some_Exists {A : Type} (f : A -> bool) (l : list A) :
  Exists (fun x => f x = true) l ->
  exists x, List.find f l = Some x /\ x ∈ l /\ f x = true.
Proof.
  induction 1 as [x l Hx | x l _ IH]; simpl.
  - rewrite Hx. exists x. split; [reflexivity | split; [left | exact Hx]].
  - destruct (f x) eqn:E.
    + exists x. split; [reflexivity | split; [left | exact E]].
    + destruct IH as (y & Hy & Hin & Hf). exists y.
      split; [exact Hy | split; [right; exact Hin | exact Hf]].
Qed.

(** C9: when no row of [users] has the id of the path, GET /user/:id, and
    GET /user/:id/secure under the valid token, answer with status 200 and
    an empty body: [get] yields [undefined], which [res.json] sends as
    nothing; no error status. *)
Theorem get_user_not_found (req : Request) (s : string) (c : Conn) :
  params req !! "id" = Some s ->
  Forall (fun u => selects s u = false) (users c) ->
  get_user req fresh c = (ok_empty, c) /\
  (headers req !! "authorization" = Some bearer ->
   get_user_secure req fresh c = (ok_empty, c)).
Proof.
  intros Hid Hnone.
  assert (Hf : find_user (SText s) c = None).
  { rewrite find_user_text. apply find_none_Forall. exact Hnone. }
  split.
  - unfold get_user, select_user_star, param. rewrite Hid, bind1_string, Hf.
    reflexivity.
  - intros Hh. unfold get_user_secure. rewrite guarded_admits by exact Hh.
    unfold get_user_secure_handler, select_user_public, param.
    rewrite Hid, bind1_string, Hf. reflexivity.
Qed.

(** C6: when some row of [users] has the id of the path, GET
    /user/:id/secure with the valid token answers 200 with one such row as
    an object whose fields are exactly [id] and [username]: no password. *)
Theorem get_user_secure_fields (req : Request) (s : string) (c : Conn) :
  headers req !! "authorization" = Some bearer ->
  params req !! "id" = Some s ->
  Exists (fun u => selects s u = true) (users c) ->
  exists u,
    u ∈ users c /\ selects s u = true /\
    get_user_secure req fresh c =
      (ok_json (VObj [("id", to_js (SInt (u_id u)));
                      ("username", to_js (u_username u))]), c) /\
    keys (VObj [("id", to_js (SInt (u_id u)));
                ("username", to_js (u_username u))])
      = ["id"; "username"].
Proof.
  intros Hh Hid Hex.
  destruct (find_some_Exists _ _ Hex) as (u & Hfind & Hin & Hsel).
  exists u. split; [exact Hin | split; [exact Hsel | split; [|reflexivity]]].
  unfold get_user_secure. rewrite guarded_admits by exact Hh.
  unfold get_user_secure_handler, select_user_public, param.
  rewrite Hid, bind1_string, find_user_text, Hfind. reflexivity.
Qed.

(** *** The two queries for the posts of an owner *)

Lemma is_digit_range (a : ascii) :
  is_digit a = true -> 0 <= Z.of_nat (nat_of_ascii a) - 48 <= 9.
Proof. unfold is_digit. intros H. apply andb_prop in H. lia. Qed.

Lemma digits_value_nonneg (d : string) :
  all_digits d = true -> forall acc, 0 <= acc -> 0 <= digits_value acc d.
Proof.
  induction d as [|a d IH]; simpl; intros Hd acc Hacc; [exact Hacc|].
  apply andb_prop in Hd. destruct Hd as [Ha Hd].
  apply IH; [exact Hd|]. pose proof (is_digit_range a Ha). lia.
Qed.

Lemma numeral_digits (q : string) (neg : bool) (d : string) :
  numeral q = Some (neg, d) -> all_digits d = true.
Proof.
  unfold numeral.
  destruct (match q with
            | String "-" r => (true, r)
            | String "+" r => (false, r)
            | _ => (false, q)
            end) as [n d'].
  destruct d' as [|a r]; [discriminate|].
  destruct (all_digits (String a r)) eqn:E; [|discriminate].
  intros [= <- <-]. exact E.
Qed.

(** The literal in the query text and the bound text denote one value. *)
Lemma literal_is_affinity (q : string) (neg : bool) (d : string) :
  numeral q = Some (neg, d) -> codeInteger d neg = text_numeric q.
Proof.
  intros Hq. unfold text_numeric. rewrite Hq.
  pose proof (digits_value_nonneg d (numeral_digits _ _ _ Hq) 0 (Z.le_refl 0))
    as Hm.
  unfold codeInteger. cbv zeta.
  set (m := digits_value 0 d) in *.
  unfold is_int64, int64_min, int64_max.
  destruct (Z.leb_spec m (2 ^ 63 - 1)) as [Hle | Hgt].
  - destruct neg.
    + rewrite (proj2 (Z.leb_le _ _)) by lia.
      rewrite (proj2 (Z.leb_le _ _)) by lia. reflexivity.
    + rewrite (proj2 (Z.leb_le _ _)) by lia.
      rewrite (proj2 (Z.leb_le _ _)) by lia. reflexivity.
  - destruct (Z.eqb_spec m (2 ^ 63)) as [He | Hne]; destruct neg; simpl.
    + rewrite He. reflexivity.
    + rewrite (proj2 (Z.leb_gt m (2 ^ 63 - 1))) by lia.
      rewrite andb_false_r. reflexivity.
    + rewrite (proj2 (Z.leb_gt (- 2 ^ 63) (- m))) by lia. reflexivity.
    + rewrite (proj2 (Z.leb_gt m (2 ^ 63 - 1))) by lia.
      rewrite andb_false_r. reflexivity.
Qed.

(** C10: for a [userId] that is a decimal integer numeral (digits, with an
    optional sign), GET /posts/insecure and GET /posts/secure give the same
    response, the same rows in the same order, and leave the connection as
    it is. *)
Theorem posts_routes_agree (req : Request) (q : string) (c : Conn) :
  prop (query req) "userId" = VStr q ->
  is_Some (numeral q) ->
  posts_insecure req fresh c = Some (posts_secure req fresh c).
Proof.
  intros Hq [[neg d] Hn].
  unfold posts_insecure, posts_secure, select_posts_interpolated,
    select_posts_param.
  rewrite Hq, bind1_string. simpl.
  unfold interpolated_expr. rewrite Hn. simpl.
  rewrite (literal_is_affinity q neg d Hn). reflexivity.
Qed.

(** *** What a step does to the connection *)

Lemma bind2_values (a b : value) (x y : sqlval) :
  bind_value a = Some x -> bind_value b = Some y -> bind2 a b = inr (x, y).
Proof. intros Ha Hb. unfold bind2. rewrite Ha, Hb. reflexivity. Qed.

Lemma insert_user_inv (a b : value) (c c' : Conn) :
  insert_user a b c = inr c' ->
  exists u p,
    bind2 a b = inr (u, p) /\
    unique_conflict (text_affinity u) (users c) = false /\
    c' = mkConn
           (users c ++ [mkUser (next_rowid (u_id <$> users c) (seq_users c))
                          (text_affinity u) (text_affinity p)])
           (posts c) (next_rowid (u_id <$> users c) (seq_users c))
           (seq_posts c) (foreign_keys c).
Proof.
  unfold insert_user. destruct (bind2 a b) as [e | [u p]]; [discriminate|].
  cbv zeta.
  destruct (unique_conflict (text_affinity u) (users c)) eqn:E; [discriminate|].
  intros [= <-]. exists u, p. split; [reflexivity | split; [exact E | reflexivity]].
Qed.

Lemma insert_post_inv (a b : value) (c c' : Conn) :
  insert_post a b c = inr c' ->
  exists uid txt,
    bind2 a b = inr (uid, txt) /\
    fk_violation (integer_affinity uid) c = false /\
    c' = mkConn (users c)
           (posts c ++ [mkPost (next_rowid (p_id <$> posts c) (seq_posts c))
                          (integer_affinity uid) (text_affinity txt)])
           (seq_users c) (next_rowid (p_id <$> posts c) (seq_posts c))
           (foreign_keys c).
Proof.
  unfold insert_post. destruct (bind2 a b) as [e | [uid txt]]; [discriminate|].
  cbv zeta.
  destruct (fk_violation (integer_affinity uid) c) eqn:E; [discriminate|].
  intros [= <-]. exists uid, txt.
  split; [reflexivity | split; [exact E | reflexivity]].
Qed.

Lemma extends_refl (c : Conn) : extends c c.
Proof.
  split; [exists []; symmetry; apply app_nil_r|].
  split; [exists []; symmetry; apply app_nil_r | reflexivity].
Qed.

Lemma extends_trans (c1 c2 c3 : Conn) :
  extends c1 c2 -> extends c2 c3 -> extends c1 c3.
Proof.
  intros ([us1 Hu1] & [ps1 Hp1] & Hf1) ([us2 Hu2] & [ps2 Hp2] & Hf2).
  split; [exists (us1 ++ us2); rewrite Hu2, Hu1; symmetry; apply app_assoc|].
  split; [exists (ps1 ++ ps2); rewrite Hp2, Hp1; symmetry; apply app_assoc|].
  congruence.
Qed.

Lemma insert_user_extends (a b : value) (c c' : Conn) :
  insert_user a b c = inr c' -> extends c c'.
Proof.
  intros H. destruct (insert_user_inv _ _ _ _ H) as (u & p & _ & _ & ->).
  split; [eexists; reflexivity|].
  split; [exists []; symmetry; apply app_nil_r | reflexivity].
Qed.

Lemma insert_post_extends (a b : value) (c c' : Conn) :
  insert_post a b c = inr c' -> extends c c'.
Proof.
  intros H. destruct (insert_post_inv _ _ _ _ H) as (u & p & _ & _ & ->).
  split; [exists []; symmetry; apply app_nil_r|].
  split; [eexists; reflexivity | reflexivity].
Qed.

Lemma register_insecure_extends (req : Request) (res res' : Response)
    (c c' : Conn) :
  register_insecure req res c = (res', c') -> extends c c'.
Proof.
  unfold register_insecure.
  destruct (insert_user _ _ c) as [e | c1] eqn:E; intros [= _ <-].
  - apply extends_refl.
  - exact (insert_user_extends _ _ _ _ E).
Qed.

Lemma register_secure_extends (salt : string) (req : Request)
    (res res' : Response) (c c' : Conn) :
  register_secure salt req res c = (res', c') -> extends c c'.
Proof.
  unfold register_secure.
  destruct (bcrypt_hash_value _ 10 salt) as [e | h];
    [intros [= _ <-]; apply extends_refl|].
  destruct (insert_user _ _ c) as [e | c1] eqn:E; intros [= _ <-].
  - apply extends_refl.
  - exact (insert_user_extends _ _ _ _ E).
Qed.

Lemma post_insecure_extends (req : Request) (res res' : Response)
    (c c' : Conn) :
  post_insecure req res c = (res', c') -> extends c c'.
Proof.
  unfold post_insecure.
  destruct (insert_post _ _ c) as [e | c1] eqn:E; intros [= _ <-].
  - apply extends_refl.
  - exact (insert_post_extends _ _ _ _ E).
Qed.

Lemma post_secure_extends (req : Request) (res res' : Response)
    (c c' : Conn) :
  post_secure req res c = (res', c') -> extends c c'.
Proof.
  unfold post_secure.
  destruct (xss _) as [e | txt]; [intros [= _ <-]; apply extends_refl|].
  destruct (insert_post _ _ c) as [e | c1] eqn:E; intros [= _ <-].
  - apply extends_refl.
  - exact (insert_post_extends _ _ _ _ E).
Qed.

Lemma app_extends (r : Route) (salt : string) (req : Request)
    (res : Response) (c c' : Conn) :
  app r salt req c = Some (res, c') -> extends c c'.
Proof.
  destruct r; simpl.
  - unfold get_user. destruct (select_user_star _ c);
      intros [= _ <-]; apply extends_refl.
  - unfold get_user_secure, guarded.
    destruct (authMiddleware req fresh); [|intros [= _ <-]; apply extends_refl].
    unfold get_user_secure_handler. destruct (select_user_public _ c);
      intros [= _ <-]; apply extends_refl.
  - intros [= H]. exact (register_insecure_extends _ _ _ _ _ H).
  - intros [= H]. exact (register_secure_extends _ _ _ _ _ _ H).
  - unfold posts_insecure. destruct (select_posts_interpolated _ c);
      simpl; [|discriminate]. intros [= _ <-]. apply extends_refl.
  - unfold posts_secure. destruct (select_posts_param _ c);
      intros [= _ <-]; apply extends_refl.
  - intros [= H]. exact (post_insecure_extends _ _ _ _ _ H).
  - intros [= H]. exact (post_secure_extends _ _ _ _ _ H).
Qed.

Lemma later_extends (c c' : Conn) : later c c' -> extends c c'.
Proof.
  induction 1 as [c | c r salt req res c1 c2 Hstep _ IH].
  - apply extends_refl.
  - exact (extends_trans _ _ _ (app_extends _ _ _ _ _ _ Hstep) IH).
Qed.

Lemma later_keeps_user (c c' : Conn) (u : User) :
  later c c' -> u ∈ users c -> u ∈ users c'.
Proof.
  intros H Hin. destruct (later_extends _ _ H) as ([us ->] & _).
  apply elem_of_app. left. exact Hin.
Qed.

Lemma later_keeps_post (c c' : Conn) (p : Post) :
  later c c' -> p ∈ posts c -> p ∈ posts c'.
Proof.
  intros H Hin. destruct (later_extends _ _ H) as (_ & [ps ->] & _).
  apply elem_of_app. left. exact Hin.
Qed.

(** *** Registration *)

Lemma max_id_ge (ids : list Z) (x : Z) : x ∈ ids -> x <= max_id ids.
Proof.
  induction 1 as [x l | x y l _ IH]; simpl; lia.
Qed.

Lemma next_rowid_fresh (ids : list Z) (seq x : Z) :
  x ∈ ids -> x <> next_rowid ids seq.
Proof.
  intros H. pose proof (max_id_ge _ _ H). unfold next_rowid. lia.
Qed.

Lemma find_last {A : Type} (f : A -> bool) (l : list A) (y : A) :
  Forall (fun x => f x = false) l -> f y = true ->
  List.find f (l ++ [y]) = Some y.
Proof.
  induction 1 as [|x l Hx _ IH]; simpl; intros Hy.
  - rewrite Hy. reflexivity.
  - rewrite Hx. exact (IH Hy).
Qed.

(** A registration that answered [{ success: true }], for string
    credentials, appended one row: the username, and the password that the
    route hands to the INSERT. *)
Lemma register_inv (k : registration) (req : Request) (u p : string)
    (res : Response) (c c' : Conn) :
  prop (body req) "username" = VStr u ->
  prop (body req) "password" = VStr p ->
  register k req fresh c = (res, c') ->
  sent res = Some (Json success) ->
  unique_conflict (SText u) (users c) = false /\
  users c' = users c ++
    [mkUser (next_rowid (u_id <$> users c) (seq_users c)) (SText u)
       (SText match k with
              | Insecure => p
              | Secure salt => bcrypt_hash p 10 salt
              end)].
Proof.
  intros Hu Hp Hreg Hok. destruct k as [|salt]; simpl in Hreg.
  - unfold register_insecure in Hreg. rewrite Hu, Hp in Hreg.
    destruct (insert_user (VStr u) (VStr p) c) as [e | c1] eqn:E;
      injection Hreg as <- <-; [discriminate Hok|].
    destruct (insert_user_inv _ _ _ _ E) as (x & y & Hb & Hun & ->).
    rewrite (bind2_values (VStr u) (VStr p) (SText u) (SText p)
               eq_refl eq_refl) in Hb.
    injection Hb as <- <-. split; [exact Hun | reflexivity].
  - unfold register_secure in Hreg. rewrite Hu, Hp in Hreg. simpl in Hreg.
    destruct (insert_user (VStr u) (VStr (bcrypt_hash p 10 salt)) c)
      as [e | c1] eqn:E;
      injection Hreg as <- <-; [discriminate Hok|].
    destruct (insert_user_inv _ _ _ _ E) as (x & y & Hb & Hun & ->).
    rewrite (bind2_values (VStr u) (VStr (bcrypt_hash p 10 salt)) (SText u)
               (SText (bcrypt_hash p 10 salt)) eq_refl eq_refl) in Hb.
    injection Hb as <- <-. split; [exact Hun | reflexivity].
Qed.

(** C5: a registration through POST /register/insecure that succeeded
    stored the password string itself: the row appended to [users] holds
    the username and the password as given, and looking the new id up finds
    that row. *)
Theorem register_insecure_stores_plaintext (req : Request) (u p : string)
    (res : Response) (c c' : Conn) :
  prop (body req) "username" = VStr u ->
  prop (body req) "password" = VStr p ->
  register_insecure req fresh c = (res, c') ->
  sent res = Some (Json success) ->
  exists i,
    users c' = users c ++ [mkUser i (SText u) (SText p)] /\
    find_user (SInt i) c' = Some (mkUser i (SText u) (SText p)).
Proof.
  intros Hu Hp Hreg Hok.
  destruct (register_inv Insecure req u p res c c' Hu Hp Hreg Hok)
    as [_ Hrows].
  eexists. split; [exact Hrows|].
  unfold find_user. rewrite Hrows. apply find_last.
  - apply Forall_forall. intros x Hx. simpl.
    apply Z.eqb_neq. apply next_rowid_fresh.
    apply list_elem_of_fmap. exists x. split; [reflexivity | exact Hx].
  - simpl. apply Z.eqb_refl.
Qed.

Lemma unique_conflict_present (u : string) (rows : list User) (r : User) :
  r ∈ rows -> u_username r = SText u ->
  unique_conflict (SText u) rows = true.
Proof.
  intros Hin Hu. simpl. apply existsb_exists. exists r.
  split; [apply list_elem_of_In; exact Hin|].
  rewrite Hu. simpl. apply bool_decide_eq_true_2. reflexivity.
Qed.

Lemma insert_user_duplicate (u : string) (b : value) (y : sqlval) (c : Conn) :
  bind_value b = Some y ->
  unique_conflict (SText u) (users c) = true ->
  insert_user (VStr u) b c =
    inl (mkError "UNIQUE constraint failed: users.username").
Proof.
  intros Hb Hun. unfold insert_user.
  rewrite (bind2_values (VStr u) b (SText u) y eq_refl Hb).
  cbv zeta. simpl text_affinity. rewrite Hun. reflexivity.
Qed.

(** C4: once a registration of the username [u] has succeeded, through
    either route, every later registration of [u], through either route,
    is refused: status 400, the body [{ error }] carrying the message of
    the UNIQUE constraint on [users.username], and no row added. *)
Theorem second_registration_fails (k1 k2 : registration)
    (req1 req2 : Request) (u p1 p2 : string) (res1 : Response)
    (c c1 c2 : Conn) :
  prop (body req1) "username" = VStr u ->
  prop (body req1) "password" = VStr p1 ->
  register k1 req1 fresh c = (res1, c1) ->
  sent res1 = Some (Json success) ->
  later c1 c2 ->
  prop (body req2) "username" = VStr u ->
  prop (body req2) "password" = VStr p2 ->
  register k2 req2 fresh c2 =
    (bad_request "UNIQUE constraint failed: users.username", c2).
Proof.
  intros Hu1 Hp1 Hreg Hok Hlater Hu2 Hp2.
  destruct (register_inv k1 req1 u p1 res1 c c1 Hu1 Hp1 Hreg Hok)
    as [_ Hrows].
  assert (Hun : unique_conflict (SText u) (users c2) = true).
  { apply (unique_conflict_present u (users c2)
             (mkUser (next_rowid (u_id <$> users c) (seq_users c)) (SText u)
                (SText match k1 with
                       | Insecure => p1
                       | Secure salt => bcrypt_hash p1 10 salt
                       end))); [|reflexivity].
    apply (later_keeps_user c1 c2); [exact Hlater|].
    rewrite Hrows. apply elem_of_app. right. apply list_elem_of_singleton.
    reflexivity. }
  destruct k2 as [|salt]; simpl.
  - unfold register_insecure. rewrite Hu2, Hp2.
    rewrite (insert_user_duplicate u (VStr p2) (SText p2) c2 eq_refl Hun).
    reflexivity.
  - unfold register_secure. rewrite Hu2, Hp2. simpl bcrypt_hash_value.
    cbv iota.
    rewrite (insert_user_duplicate u (VStr (bcrypt_hash p2 10 salt))
               (SText (bcrypt_hash p2 10 salt)) c2 eq_refl Hun).
    reflexivity.
Qed.

(** The secure route stores what [bcrypt.hash(password, 10)] returned. *)
Lemma register_secure_stores_hash (salt : string) (req : Request)
    (u p : string) (res : Response) (c c' : Conn) :
  prop (body req) "username" = VStr u ->
  prop (body req) "password" = VStr p ->
  register_secure salt req fresh c = (res, c') ->
  sent res = Some (Json success) ->
  exists i,
    users c' = users c ++ [mkUser i (SText u) (SText (bcrypt_hash p 10 salt))].
Proof.
  intros Hu Hp Hreg Hok.
  destruct (register_inv (Secure salt) req u p res c c' Hu Hp Hreg Hok)
    as [_ Hrows].
  eexists. exact Hrows.
Qed.

(** *** Posts *)

Lemma integer_affinity_number (n : Z) :
  int64_min < n < int64_max -> integer_affinity (SReal (RNum n)) = SInt n.
Proof.
  intros [Hlo Hhi]. simpl.
  rewrite (proj2 (Z.ltb_lt _ _) Hlo), (proj2 (Z.ltb_lt _ _) Hhi). reflexivity.
Qed.

Lemma posts_where_elem (v : sqlval) (c : Conn) (p : Post) :
  p ∈ posts c -> sql_eq (p_user_id p) v = true -> p ∈ posts_where v c.
Proof.
  intros Hin Heq. apply list_elem_of_In. apply filter_In.
  split; [apply list_elem_of_In; exact Hin | exact Heq].
Qed.

(** C7: a content string that POST /post/insecure stored comes back
    unmodified.  Let the post be stored for the owner [n] (a [userId] such
    as the number [n], which column [user_id] keeps as that integer); at
    any later time, GET /posts/insecure with a [userId] that denotes [n]
    answers 200 with an array that has a row of that owner whose [content]
    is the string as it was posted, markup included. *)
Theorem post_insecure_content_unmodified (req req' : Request) (key : sqlval)
    (n : Z) (txt q : string) (res : Response) (c c1 c2 : Conn) :
  bind_value (prop (body req) "userId") = Some key ->
  integer_affinity key = SInt n ->
  prop (body req) "content" = VStr txt ->
  post_insecure req fresh c = (res, c1) ->
  sent res = Some (Json success) ->
  later c1 c2 ->
  prop (query req') "userId" = VStr q ->
  interpolated_expr q = Some (SInt n) ->
  exists rows i,
    posts_insecure req' fresh c2 = Some (ok_json (VArr rows), c2) /\
    VObj [("id", to_js (SInt i)); ("user_id", to_js (SInt n));
          ("content", VStr txt)] ∈ rows.
Proof.
  intros Hid Hn Htxt Hpost Hok Hlater Hq Hexpr.
  unfold post_insecure in Hpost. rewrite Htxt in Hpost.
  destruct (insert_post (prop (body req) "userId") (VStr txt) c)
    as [e | c'] eqn:E;
    injection Hpost as <- <-; [discriminate Hok|].
  destruct (insert_post_inv _ _ _ _ E) as (x & y & Hb & _ & Hc).
  rewrite (bind2_values _ (VStr txt) key (SText txt) Hid eq_refl) in Hb.
  injection Hb as <- <-. rewrite Hn in Hc. simpl text_affinity in Hc.
  set (i := next_rowid (p_id <$> posts c) (seq_posts c)) in Hc.
  assert (Hin : mkPost i (SInt n) (SText txt) ∈ posts c2).
  { apply (later_keeps_post c' c2); [exact Hlater|]. rewrite Hc. simpl.
    apply elem_of_app. right. apply list_elem_of_singleton. reflexivity. }
  exists (post_row <$> posts_where (SInt n) c2), i. split.
  - unfold posts_insecure, select_posts_interpolated. rewrite Hq. simpl.
    rewrite Hexpr. reflexivity.
  - apply list_elem_of_fmap. exists (mkPost i (SInt n) (SText txt)).
    split; [reflexivity|].
    apply posts_where_elem; [exact Hin|]. simpl. apply Z.eqb_refl.
Qed.

Lemma later_sqliteDb_foreign_keys (us : list User) (ps : list Post)
    (su sp : Z) (c : Conn) :
  later (sqliteDb us ps su sp) c -> foreign_keys c = true.
Proof.
  intros H. destruct (later_extends _ _ H) as (_ & _ & ->). reflexivity.
Qed.

Lemma fk_violation_enforced (v : sqlval) (c : Conn) :
  foreign_keys c = true ->
  fk_violation v c = false <-> references v c.
Proof.
  intros Hfk. unfold fk_violation, references. rewrite Hfk. cbn [andb].
  assert (Hex : existsb (fun u => sql_eq (SInt (u_id u)) v) (users c) = true
                <-> Exists (fun u => sql_eq (SInt (u_id u)) v = true) (users c)).
  { rewrite existsb_exists, Exists_exists. split.
    - intros (u & Hin & He). exists u.
      split; [apply list_elem_of_In; exact Hin | exact He].
    - intros (u & Hin & He). exists u.
      split; [apply list_elem_of_In; exact Hin | exact He]. }
  destruct v as [| z | r | t].
  - split; [intros _; left; reflexivity | reflexivity].
  - rewrite negb_false_iff, Hex.
    split; [intros H; right; exact H | intros [H | H]; [discriminate | exact H]].
  - rewrite negb_false_iff, Hex.
    split; [intros H; right; exact H | intros [H | H]; [discriminate | exact H]].
  - rewrite negb_false_iff, Hex.
    split; [intros H; right; exact H | intros [H | H]; [discriminate | exact H]].
Qed.

Lemma insert_post_cases (a b : value) (x y : sqlval) (c : Conn) :
  bind_value a = Some x -> bind_value b = Some y ->
  insert_post a b c =
    if fk_violation (integer_affinity x) c
    then inl (mkError "FOREIGN KEY constraint failed")
    else inr (mkConn (users c)
           (posts c ++ [mkPost (next_rowid (p_id <$> posts c) (seq_posts c))
                          (integer_affinity x) (text_affinity y)])
           (seq_users c) (next_rowid (p_id <$> posts c) (seq_posts c))
           (foreign_keys c)).
Proof.
  intros Ha Hb. unfold insert_post. rewrite (bind2_values a b x y Ha Hb).
  reflexivity.
Qed.

(** C8, as amended: on the connection of the server, at any time, the
    FOREIGN KEY on [posts.user_id] is enforced.  For whatever [userId] the
    driver can bind (a number, a string, null) and a string [content],
    both post routes store the post exactly when the [user_id] to store is
    NULL or the id of a row of [users]: then they answer
    [{ success: true }], the row is appended and is still there at any
    later time.  Otherwise, so for a [userId] that matches no user, the
    INSERT throws, the answer is the 500 of the error handler and nothing
    is stored. *)
Theorem post_needs_user (k : creation) (us : list User) (ps : list Post)
    (su sp : Z) (req : Request) (key : sqlval) (txt : string) (c : Conn) :
  later (sqliteDb us ps su sp) c ->
  bind_value (prop (body req) "userId") = Some key ->
  prop (body req) "content" = VStr txt ->
  (references (integer_affinity key) c /\
   exists p c',
     p_user_id p = integer_affinity key /\
     p_content p =
       SText match k with Raw => txt | Sanitized => xss_string txt end /\
     create_post k req fresh c = (ok_json success, c') /\
     posts c' = posts c ++ [p] /\
     forall c'', later c' c'' -> p ∈ posts c'') \/
  (~ references (integer_affinity key) c /\
   create_post k req fresh c = (error_page, c)).
Proof.
  intros Hlater Hkey Htxt.
  pose proof (later_sqliteDb_foreign_keys _ _ _ _ _ Hlater) as Hfk.
  pose proof (fk_violation_enforced (integer_affinity key) c Hfk) as Href.
  set (stored := match k with Raw => txt | Sanitized => xss_string txt end).
  assert (Hrun : create_post k req fresh c =
            match insert_post (prop (body req) "userId") (VStr stored) c with
            | inl e => (uncaught e fresh, c)
            | inr c' => (json success fresh, c')
            end).
  { destruct k; simpl; unfold post_insecure, post_secure; rewrite Htxt;
      reflexivity. }
  rewrite Hrun.
  rewrite (insert_post_cases _ (VStr stored) key (SText stored) c Hkey eq_refl).
  destruct (fk_violation (integer_affinity key) c) eqn:E.
  - right. split; [|reflexivity].
    intros H. apply Href in H. discriminate H.
  - left. split; [apply Href; reflexivity|].
    set (i := next_rowid (p_id <$> posts c) (seq_posts c)).
    exists (mkPost i (integer_affinity key) (SText stored)).
    eexists. split; [reflexivity | split; [reflexivity|]].
    split; [reflexivity | split; [reflexivity|]].
    intros c'' H. apply (later_keeps_post _ _ _ H). simpl.
    apply elem_of_app. right. apply list_elem_of_singleton. reflexivity.
Qed.

(** *** Beyond the claims: reading users *)

(** GET /user/:id hands out the whole row, password included, and asks for
    no token: for an id that some row has, whatever the headers of the
    request, the answer is 200 with the fields [id], [username] and
    [password] of a matching row. *)
Theorem get_user_exposes_password (req : Request) (s : string) (c : Conn) :
  params req !! "id" = Some s ->
  Exists (fun u => selects s u = true) (users c) ->
  exists u,
    u ∈ users c /\ selects s u = true /\
    get_user req fresh c =
      (ok_json (VObj [("id", to_js (SInt (u_id u)));
                      ("username", to_js (u_username u));
                      ("password", to_js (u_password u))]), c).
Proof.
  intros Hid Hex.
  destruct (find_some_Exists _ _ Hex) as (u & Hfind & Hin & Hsel).
  exists u. split; [exact Hin | split; [exact Hsel|]].
  unfold get_user, select_user_star, param.
  rewrite Hid, bind1_string, find_user_text, Hfind. reflexivity.
Qed.

Lemma find_first {A : Type} (f : A -> bool) (l k : list A) (y : A) :
  Forall (fun x => f x = false) l -> f y = true ->
  List.find f (l ++ [y] ++ k) = Some y.
Proof.
  induction 1 as [|x l Hx _ IH]; intros Hy.
  - change (List.find f (y :: k) = Some y). simpl. rewrite Hy. reflexivity.
  - change (List.find f (x :: (l ++ [y] ++ k)) = Some y). simpl.
    rewrite Hx. exact (IH Hy).
Qed.

(** Registration, then lookup: after a registration that succeeded, at any
    later time, GET /user/:id for the id the row was given answers with
    that row, and its [password] field is what the route stored: the
    password itself after /register/insecure, the bcrypt hash after
    /register/secure. *)
Theorem register_then_get_user (k : registration) (req req' : Request)
    (u p s : string) (res : Response) (c c1 c2 : Conn) :
  prop (body req) "username" = VStr u ->
  prop (body req) "password" = VStr p ->
  register k req fresh c = (res, c1) ->
  sent res = Some (Json success) ->
  later c1 c2 ->
  params req' !! "id" = Some s ->
  text_numeric s = SInt (next_rowid (u_id <$> users c) (seq_users c)) ->
  get_user req' fresh c2 =
    (ok_json (VObj [("id", to_js (SInt (next_rowid (u_id <$> users c)
                                           (seq_users c))));
                    ("username", VStr u);
                    ("password", VStr (stored_form k p))]), c2).
Proof.
  intros Hu Hp Hreg Hok Hlater Hid Hs.
  destruct (register_inv k req u p res c c1 Hu Hp Hreg Hok) as [_ Hrows].
  destruct (later_extends _ _ Hlater) as ([us Hus] & _).
  unfold get_user, select_user_star, param.
  rewrite Hid, bind1_string, find_user_text, Hus, Hrows, <- app_assoc.
  rewrite find_first.
  - destruct k; reflexivity.
  - apply Forall_forall. intros x Hx. unfold selects. rewrite Hs. simpl.
    apply Z.eqb_neq. apply next_rowid_fresh.
    apply list_elem_of_fmap. exists x. split; [reflexivity | exact Hx].
  - unfold selects. rewrite Hs. simpl. apply Z.eqb_refl.
Qed.

(** *** Beyond the claims: what a request can do to the connection *)

(** A step either keeps the connection or is one INSERT that went through,
    answered with [{ success: true }]. *)
Lemma app_step_cases (r : Route) (salt : string) (req : Request)
    (res : Response) (c c' : Conn) :
  app r salt req c = Some (res, c') ->
  c' = c \/
  (res = ok_json success /\ writes r = true /\
   ((exists a b, insert_user a b c = inr c') \/
    (exists a b, insert_post a b c = inr c'))).
Proof.
  destruct r; simpl.
  - unfold get_user. destruct (select_user_star _ c);
      intros [= _ <-]; left; reflexivity.
  - unfold get_user_secure, guarded.
    destruct (authMiddleware req fresh);
      [|intros [= _ <-]; left; reflexivity].
    unfold get_user_secure_handler. destruct (select_user_public _ c);
      intros [= _ <-]; left; reflexivity.
  - unfold register_insecure.
    destruct (insert_user _ _ c) as [e | c1] eqn:E; intros [= <- <-].
    + left; reflexivity.
    + right. split; [reflexivity | split; [reflexivity|]].
      left. eexists _, _. exact E.
  - unfold register_secure.
    destruct (bcrypt_hash_value _ 10 salt) as [e | h];
      [intros [= _ <-]; left; reflexivity|].
    destruct (insert_user _ _ c) as [e | c1] eqn:E; intros [= <- <-].
    + left; reflexivity.
    + right. split; [reflexivity | split; [reflexivity|]].
      left. eexists _, _. exact E.
  - unfold posts_insecure. destruct (select_posts_interpolated _ c);
      simpl; [|discriminate]. intros [= _ <-]. left; reflexivity.
  - unfold posts_secure. destruct (select_posts_param _ c);
      intros [= _ <-]; left; reflexivity.
  - unfold post_insecure.
    destruct (insert_post _ _ c) as [e | c1] eqn:E; intros [= <- <-].
    + left; reflexivity.
    + right. split; [reflexivity | split; [reflexivity|]].
      right. eexists _, _. exact E.
  - unfold post_secure.
    destruct (xss _) as [e | txt]; [intros [= _ <-]; left; reflexivity|].
    destruct (insert_post _ _ c) as [e | c1] eqn:E; intros [= <- <-].
    + left; reflexivity.
    + right. split; [reflexivity | split; [reflexivity|]].
      right. eexists _, _. exact E.
Qed.

(** [serve] is [app] where [app] answers, and a read elsewhere. *)
Lemma serve_cases (r : Route) (salt : string) (req : Request) (c : Conn) :
  app r salt req c = Some (serve r salt req c) \/
  (r = GET_posts_insecure /\
   exists e_or_rows,
     select_other (prop (query req) "userId") c = e_or_rows /\
     serve r salt req c =
       match e_or_rows with
       | inl e => (uncaught e fresh, c)
       | inr posts => (json posts fresh, c)
       end).
Proof.
  destruct r; simpl; try (left; reflexivity).
  unfold posts_insecure_any.
  destruct (posts_insecure req fresh c) as [answer|]; [left; reflexivity|].
  right. split; [reflexivity|]. eexists. split; reflexivity.
Qed.

(** A property of the connection that every INSERT keeps holds at any
    later time. *)
Lemma later_invariant (P : Conn -> Prop) :
  (forall a b c c', insert_user a b c = inr c' -> P c -> P c') ->
  (forall a b c c', insert_post a b c = inr c' -> P c -> P c') ->
  forall c c', later c c' -> P c -> P c'.
Proof.
  intros Hu Hp c c'. induction 1 as [c | c r salt req res c1 c2 Hstep _ IH].
  - tauto.
  - intros HP. apply IH.
    destruct (app_step_cases _ _ _ _ _ _ Hstep)
      as [-> | (_ & _ & [(a & b & E) | (a & b & E)])].
    + exact HP.
    + exact (Hu _ _ _ _ E HP).
    + exact (Hp _ _ _ _ E HP).
Qed.

(** Only a POST that answers [{ success: true }] changes the connection.
    Whatever the request, [userId] texts outside the numerals included,
    either the connection is left as it was, or the route is one of the
    four POSTs and the answer is [{ success: true }]: the four GET routes
    never write, and a request that fails (400, 401, 500) leaves every row
    as it was. *)
Theorem only_successful_posts_write (r : Route) (salt : string)
    (req : Request) (c : Conn) :
  (serve r salt req c).2 = c \/
  (writes r = true /\ (serve r salt req c).1 = ok_json success).
Proof.
  destruct (serve_cases r salt req c) as [H | (_ & x & _ & ->)].
  - destruct (serve r salt req c) as [res c'].
    destruct (app_step_cases _ _ _ _ _ _ H) as [-> | (Hres & Hw & _)].
    + left. reflexivity.
    + right. split; [exact Hw | exact Hres].
  - left. destruct x; reflexivity.
Qed.

(** The status of an answer is one the route can give, whatever the
    request: 400 comes only from the two registrations (their [catch]),
    401 only from GET /user/:id/secure (the gate); a post creation and a
    GET answer 200 or the 500 of the error handler, never 400. *)
Theorem status_of_route (r : Route) (salt : string) (req : Request)
    (c : Conn) :
  statusCode (serve r salt req c).1 ∈ statuses r.
Proof.
  destruct r; simpl.
  - unfold get_user. destruct (select_user_star _ c); simpl; set_solver.
  - unfold get_user_secure, guarded. rewrite authMiddleware_cases.
    case_bool_decide; [|simpl; set_solver].
    unfold get_user_secure_handler. destruct (select_user_public _ c);
      simpl; set_solver.
  - unfold register_insecure. destruct (insert_user _ _ c);
      simpl; set_solver.
  - unfold register_secure. destruct (bcrypt_hash_value _ 10 salt);
      [simpl; set_solver|].
    destruct (insert_user _ _ c); simpl; set_solver.
  - unfold posts_insecure_any, posts_insecure.
    destruct (select_posts_interpolated _ c); simpl; [set_solver|].
    destruct (select_other _ c); simpl; set_solver.
  - unfold posts_secure. destruct (select_posts_param _ c);
      simpl; set_solver.
  - unfold post_insecure. destruct (insert_post _ _ c); simpl; set_solver.
  - unfold post_secure. destruct (xss _); [simpl; set_solver|].
    destruct (insert_post _ _ c); simpl; set_solver.
Qed.

(** No request deletes or rewrites a row: at any later time both tables
    start with the rows they had, in the same order, and the pragma is
    what it was. *)
Theorem requests_only_append (c c' : Conn) :
  later c c' ->
  users c `prefix_of` users c' /\
  posts c `prefix_of` posts c' /\
  foreign_keys c' = foreign_keys c.
Proof.
  intros H. destruct (later_extends _ _ H) as ([us Hu] & [ps Hp] & Hf).
  split; [exists us; exact Hu | split; [exists ps; exact Hp | exact Hf]].
Qed.

Lemma sql_eq_text (x : sqlval) (u : string) :
  sql_eq x (SText u) = true <-> x = SText u.
Proof.
  destruct x as [| z | r | t]; simpl; try (split; [discriminate|discriminate]).
  rewrite bool_decide_eq_true. split; [intros ->; reflexivity | intros [= ->]; reflexivity].
Qed.

Lemma unique_conflict_text (u : string) (rows : list User) :
  unique_conflict (SText u) rows = false <->
  Forall (fun r => u_username r <> SText u) rows.
Proof.
  simpl. induction rows as [|r rows IH]; simpl.
  - split; [constructor | reflexivity].
  - rewrite orb_false_iff, IH, Forall_cons. apply and_iff_compat_r.
    split.
    + intros E Hr. apply sql_eq_text in Hr. congruence.
    + intros Hne. destruct (sql_eq (u_username r) (SText u)) eqn:E;
        [|reflexivity]. apply sql_eq_text in E. contradiction.
Qed.

Lemma username_texts_elem (c : Conn) (s : string) :
  s ∈ username_texts c -> exists r, r ∈ users c /\ u_username r = SText s.
Proof.
  unfold username_texts. intros H. apply list_elem_of_omap in H.
  destruct H as (r & Hr & Hs). exists r. split; [exact Hr|].
  destruct (u_username r); try discriminate. injection Hs as ->. reflexivity.
Qed.

Lemma insert_user_keeps_unique (a b : value) (c c' : Conn) :
  insert_user a b c = inr c' ->
  NoDup (username_texts c) -> NoDup (username_texts c').
Proof.
  intros H Hnd. destruct (insert_user_inv _ _ _ _ H) as (u & p & _ & Hun & ->).
  unfold username_texts in *. simpl users. rewrite omap_app. simpl.
  destruct (text_affinity u) as [| z | r | s] eqn:E;
    try (rewrite app_nil_r; exact Hnd).
  apply NoDup_app. split; [exact Hnd|]. split; [|apply NoDup_singleton].
  intros x Hx Hx'. apply list_elem_of_singleton in Hx'. subst x.
  destruct (username_texts_elem c s Hx) as (row & Hin & Hrow).
  apply unique_conflict_text in Hun.
  rewrite Forall_forall in Hun. exact (Hun row Hin Hrow).
Qed.

(** The UNIQUE constraint as an invariant of the server: if no text occurs
    twice in column [username], then none does at any later time,
    whatever requests are served. *)
Theorem usernames_stay_unique (c c' : Conn) :
  later c c' -> NoDup (username_texts c) -> NoDup (username_texts c').
Proof.
  apply (later_invariant (fun c => NoDup (username_texts c))).
  - exact insert_user_keeps_unique.
  - intros a b c0 c0' H Hnd.
    destruct (insert_post_inv _ _ _ _ H) as (x & y & _ & _ & ->). exact Hnd.
Qed.

Lemma NoDup_snoc_fresh (ids : list Z) (seq : Z) :
  NoDup ids -> NoDup (ids ++ [next_rowid ids seq]).
Proof.
  intros H. apply NoDup_app. split; [exact H|]. split; [|apply NoDup_singleton].
  intros x Hx Hx'. apply list_elem_of_singleton in Hx'.
  exact (next_rowid_fresh ids seq x Hx Hx').
Qed.

(** AUTOINCREMENT as an invariant of the server: if the ids of each table
    are pairwise distinct, they are at any later time; a new row never
    takes the id of a row that is there. *)
Theorem ids_stay_distinct (c c' : Conn) :
  later c c' ->
  NoDup (u_id <$> users c) /\ NoDup (p_id <$> posts c) ->
  NoDup (u_id <$> users c') /\ NoDup (p_id <$> posts c').
Proof.
  apply (later_invariant
           (fun c => NoDup (u_id <$> users c) /\ NoDup (p_id <$> posts c))).
  - intros a b c0 c0' H [Hu Hp].
    destruct (insert_user_inv _ _ _ _ H) as (x & y & _ & _ & ->).
    simpl. split; [|exact Hp]. rewrite fmap_app. simpl.
    apply NoDup_snoc_fresh. exact Hu.
  - intros a b c0 c0' H [Hu Hp].
    destruct (insert_post_inv _ _ _ _ H) as (x & y & _ & _ & ->).
    simpl. split; [exact Hu|]. rewrite fmap_app. simpl.
    apply NoDup_snoc_fresh. exact Hp.
Qed.

(** *** Beyond the claims: registration on a given table *)

Lemma register_cases (k : registration) (req : Request) (u p : string)
    (c : Conn) :
  prop (body req) "username" = VStr u ->
  prop (body req) "password" = VStr p ->
  register k req fresh c =
    if unique_conflict (SText u) (users c)
    then (bad_request "UNIQUE constraint failed: users.username", c)
    else (ok_json success,
          mkConn
            (users c ++ [mkUser (next_rowid (u_id <$> users c) (seq_users c))
                           (SText u) (SText (stored_form k p))])
            (posts c) (next_rowid (u_id <$> users c) (seq_users c))
            (seq_posts c) (foreign_keys c)).
Proof.
  intros Hu Hp.
  destruct k as [|salt]; unfold register, stored_form, register_insecure,
    register_secure; rewrite Hu, Hp; unfold bcrypt_hash_value, insert_user.
  - rewrite (bind2_values (VStr u) (VStr p) (SText u) (SText p) eq_refl
               eq_refl).
    cbv zeta. change (text_affinity (SText u)) with (SText u).
    destruct (unique_conflict (SText u) (users c)); reflexivity.
  - rewrite (bind2_values (VStr u) (VStr (bcrypt_hash p 10 salt)) (SText u)
               (SText (bcrypt_hash p 10 salt)) eq_refl eq_refl).
    cbv zeta. change (text_affinity (SText u)) with (SText u).
    destruct (unique_conflict (SText u) (users c)); reflexivity.
Qed.

(** On any table, rows of earlier runs included, a registration with
    string credentials succeeds exactly when no row has the username: the
    only thing either route checks is the UNIQUE constraint (case-sensitive,
    byte for byte); the password is never looked at. *)
Theorem register_succeeds_iff_free (k : registration) (req : Request)
    (u p : string) (c : Conn) :
  prop (body req) "username" = VStr u ->
  prop (body req) "password" = VStr p ->
  (register k req fresh c).1 = ok_json success <->
  Forall (fun r => u_username r <> SText u) (users c).
Proof.
  intros Hu Hp. rewrite (register_cases k req u p c Hu Hp).
  rewrite <- unique_conflict_text.
  destruct (unique_conflict (SText u) (users c)); simpl.
  - split; discriminate.
  - split; reflexivity.
Qed.

(** POST /register/secure with a password that is not a string (the field
    missing, null, a number) answers 400 with bcrypt's error and stores
    nothing, whether or not the username is free: the INSERT is not
    reached. *)
Theorem register_secure_rejects_non_string (salt : string) (req : Request)
    (c : Conn) :
  (forall p, prop (body req) "password" <> VStr p) ->
  register_secure salt req fresh c =
    (bad_request (message (bcrypt_reject (prop (body req) "password"))), c).
Proof.
  intros Hp. unfold register_secure, bcrypt_hash_value.
  destruct (prop (body req) "password") as [| | b | n | r | p | xs | fs]
    eqn:E; try reflexivity.
  exfalso. exact (Hp p eq_refl).
Qed.

(** A JSON null as username is bound as NULL, which UNIQUE never takes for
    a duplicate: such a registration succeeds on every table, so any number
    of rows without a username can be registered. *)
Theorem register_null_username (k : registration) (req : Request)
    (p : string) (c : Conn) :
  prop (body req) "username" = VNull ->
  prop (body req) "password" = VStr p ->
  register k req fresh c =
    (ok_json success,
     mkConn
       (users c ++ [mkUser (next_rowid (u_id <$> users c) (seq_users c))
                      SNull (SText (stored_form k p))])
       (posts c) (next_rowid (u_id <$> users c) (seq_users c))
       (seq_posts c) (foreign_keys c)).
Proof.
  intros Hu Hp.
  destruct k as [|salt]; unfold register, stored_form, register_insecure,
    register_secure; rewrite Hu, Hp; unfold bcrypt_hash_value, insert_user.
  - rewrite (bind2_values VNull (VStr p) SNull (SText p) eq_refl eq_refl).
    reflexivity.
  - rewrite (bind2_values VNull (VStr (bcrypt_hash p 10 salt)) SNull
               (SText (bcrypt_hash p 10 salt)) eq_refl eq_refl).
    reflexivity.
Qed.

(** *** Beyond the claims: the posts of an owner *)

(** POST /post/secure, then GET /posts/secure: whatever value the body
    carries as [content], when the post is stored, [xss] returned a string
    for it, and what is stored and what comes back for the owner is that
    string, never the value itself. *)
Theorem post_secure_content_sanitized (req req' : Request) (key : sqlval)
    (n : Z) (q : string) (res : Response) (c c1 c2 : Conn) :
  bind_value (prop (body req) "userId") = Some key ->
  integer_affinity key = SInt n ->
  post_secure req fresh c = (res, c1) ->
  sent res = Some (Json success) ->
  later c1 c2 ->
  prop (query req') "userId" = VStr q ->
  text_numeric q = SInt n ->
  exists txt rows i,
    xss (prop (body req) "content") = inr txt /\
    posts_secure req' fresh c2 = (ok_json (VArr rows), c2) /\
    VObj [("id", to_js (SInt i)); ("user_id", to_js (SInt n));
          ("content", VStr txt)] ∈ rows.
Proof.
  intros Hid Hn Hpost Hok Hlater Hq Hnum.
  unfold post_secure in Hpost.
  destruct (xss (prop (body req) "content")) as [e | txt];
    [injection Hpost as <- <-; discriminate Hok|].
  destruct (insert_post (prop (body req) "userId") (VStr txt) c)
    as [e | c'] eqn:E;
    injection Hpost as <- <-; [discriminate Hok|].
  destruct (insert_post_inv _ _ _ _ E) as (x & y & Hb & _ & Hc).
  rewrite (bind2_values _ (VStr txt) key (SText txt) Hid eq_refl) in Hb.
  injection Hb as <- <-. rewrite Hn in Hc. simpl text_affinity in Hc.
  set (i := next_rowid (p_id <$> posts c) (seq_posts c)) in Hc.
  assert (Hin : mkPost i (SInt n) (SText txt) ∈ posts c2).
  { apply (later_keeps_post c' c2); [exact Hlater|]. rewrite Hc. simpl.
    apply elem_of_app. right. apply list_elem_of_singleton. reflexivity. }
  exists txt, (post_row <$> posts_where (SInt n) c2), i.
  split; [reflexivity | split].
  - unfold posts_secure, select_posts_param. rewrite Hq, bind1_string.
    simpl numeric_affinity. rewrite Hnum. reflexivity.
  - apply list_elem_of_fmap. exists (mkPost i (SInt n) (SText txt)).
    split; [reflexivity|].
    apply posts_where_elem; [exact Hin|]. simpl. apply Z.eqb_refl.
Qed.

Lemma filter_sublist {A : Type} (f : A -> bool) (l : list A) :
  List.filter f l `sublist_of` l.
Proof.
  induction l as [|x l IH]; simpl; [constructor|].
  destruct (f x); [apply sublist_skip | apply sublist_cons]; exact IH.
Qed.

(** GET /posts/secure with a [userId] that denotes the integer [n] answers
    with the posts of [n] and nothing else: the rows are the posts whose
    [user_id] equals [n], in table order, and a post stored for another
    integer owner is never among them. *)
Theorem posts_secure_only_owner (req : Request) (q : string) (n : Z)
    (c : Conn) :
  prop (query req) "userId" = VStr q ->
  text_numeric q = SInt n ->
  exists ps,
    posts_secure req fresh c = (ok_json (VArr (post_row <$> ps)), c) /\
    ps `sublist_of` posts c /\
    (forall p, p ∈ ps <-> p ∈ posts c /\ sql_eq (p_user_id p) (SInt n) = true) /\
    (forall p m, p ∈ ps -> p_user_id p = SInt m -> m = n).
Proof.
  intros Hq Hnum. exists (posts_where (SInt n) c).
  assert (Hiff : forall p, p ∈ posts_where (SInt n) c <->
                   p ∈ posts c /\ sql_eq (p_user_id p) (SInt n) = true).
  { intros p. unfold posts_where. split.
    - intros Hp. apply list_elem_of_In, filter_In in Hp.
      destruct Hp as [Hp He]. split; [apply list_elem_of_In; exact Hp|exact He].
    - intros [Hp He]. apply list_elem_of_In, filter_In.
      split; [apply list_elem_of_In; exact Hp | exact He]. }
  split; [|split; [apply filter_sublist | split; [exact Hiff|]]].
  - unfold posts_secure, select_posts_param. rewrite Hq, bind1_string.
    simpl numeric_affinity. rewrite Hnum. reflexivity.
  - intros p m Hp Hm. apply Hiff in Hp. destruct Hp as [_ Heq].
    rewrite Hm in Heq. simpl in Heq. apply Z.eqb_eq. exact Heq.
Qed.

Lemma filter_none {A : Type} (f : A -> bool) (l : list A) :
  Forall (fun x => f x = false) l -> List.filter f l = [].
Proof.
  induction 1 as [|x l Hx _ IH]; simpl; [reflexivity|].
  rewrite Hx. exact IH.
Qed.

(** An owner without posts is no error: for a numeral [userId] that no
    post matches, both GET /posts routes answer 200 with the empty array
    (where GET /user/:id sends an empty body). *)
Theorem posts_of_unknown_owner (req : Request) (q : string) (c : Conn) :
  prop (query req) "userId" = VStr q ->
  is_Some (numeral q) ->
  Forall (fun p => sql_eq (p_user_id p) (text_numeric q) = false) (posts c) ->
  posts_secure req fresh c = (ok_json (VArr []), c) /\
  posts_insecure req fresh c = Some (ok_json (VArr []), c).
Proof.
  intros Hq Hnum Hnone.
  assert (Hs : posts_secure req fresh c = (ok_json (VArr []), c)).
  { unfold posts_secure, select_posts_param. rewrite Hq, bind1_string.
    simpl numeric_affinity. unfold posts_where.
    rewrite (filter_none _ _ Hnone). reflexivity. }
  split; [exact Hs|].
  destruct Hnum as [[neg d] Hn].
  unfold posts_insecure, select_posts_interpolated. rewrite Hq. simpl.
  unfold interpolated_expr. rewrite Hn. simpl.
  rewrite (literal_is_affinity q neg d Hn). unfold posts_where.
  rewrite (filter_none _ _ Hnone). reflexivity.
Qed.

Lemma existsb_id (n : Z) (rows : list User) :
  existsb (fun u => sql_eq (SInt (u_id u)) (SInt n)) rows = true <->
  Exists (fun u => u_id u = n) rows.
Proof.
  rewrite existsb_exists, Exists_exists. split.
  - intros (u & Hin & He). exists u. split; [apply list_elem_of_In; exact Hin|].
    simpl in He. apply Z.eqb_eq. exact He.
  - intros (u & Hin & He). exists u. split; [apply list_elem_of_In; exact Hin|].
    simpl. apply Z.eqb_eq. exact He.
Qed.

(** The FOREIGN KEY of line 27, on a connection that enforces foreign
    keys: a post for the integer owner [n] is stored exactly when a user
    has the id [n]; otherwise the INSERT throws, neither post route
    catches it, the answer is the 500 of the error handler and no row is
    added. *)
Theorem post_checked_when_enforced (k : creation) (req : Request)
    (key : sqlval) (n : Z) (txt : string) (c : Conn) :
  foreign_keys c = true ->
  bind_value (prop (body req) "userId") = Some key ->
  integer_affinity key = SInt n ->
  prop (body req) "content" = VStr txt ->
  (Exists (fun u => u_id u = n) (users c) /\
   (create_post k req fresh c).1 = ok_json success /\
   exists p, posts (create_post k req fresh c).2 = posts c ++ [p] /\
             p_user_id p = SInt n) \/
  (Forall (fun u => u_id u <> n) (users c) /\
   create_post k req fresh c = (error_page, c)).
Proof.
  intros Hfk Hkey Hn Htxt.
  assert (Hcase : forall b y, bind_value b = Some y ->
    insert_post (prop (body req) "userId") b c =
      if existsb (fun u => sql_eq (SInt (u_id u)) (SInt n)) (users c)
      then inr (mkConn (users c)
             (posts c ++ [mkPost (next_rowid (p_id <$> posts c) (seq_posts c))
                            (SInt n) (text_affinity y)])
             (seq_users c) (next_rowid (p_id <$> posts c) (seq_posts c))
             (foreign_keys c))
      else inl (mkError "FOREIGN KEY constraint failed")).
  { intros b y Hb. unfold insert_post.
    rewrite (bind2_values _ b key y Hkey Hb). cbv zeta. rewrite Hn.
    unfold fk_violation. rewrite Hfk. cbn [andb]. cbv iota.
    destruct (existsb (fun u => sql_eq (SInt (u_id u)) (SInt n)) (users c));
      reflexivity. }
  destruct (existsb (fun u => sql_eq (SInt (u_id u)) (SInt n)) (users c))
    eqn:E.
  - left. split; [apply existsb_id; exact E|].
    destruct k; simpl; unfold post_insecure, post_secure; rewrite Htxt.
    + rewrite (Hcase (VStr txt) (SText txt) eq_refl). simpl.
      split; [reflexivity|]. eexists. split; reflexivity.
    + cbn [xss].
      rewrite (Hcase (VStr (xss_string txt)) (SText (xss_string txt))
                 eq_refl). simpl.
      split; [reflexivity|]. eexists. split; reflexivity.
  - right. split.
    + apply Forall_forall. intros u Hu Heq.
      assert (existsb (fun u => sql_eq (SInt (u_id u)) (SInt n)) (users c)
              = true); [|congruence].
      apply existsb_id. apply Exists_exists. exists u. split; assumption.
    + destruct k; simpl; unfold post_insecure, post_secure; rewrite Htxt.
      * rewrite (Hcase (VStr txt) (SText txt) eq_refl). reflexivity.
      * cbn [xss].
        rewrite (Hcase (VStr (xss_string txt)) (SText (xss_string txt))
                   eq_refl). reflexivity.
Qed.

(** *** Beyond the claims: each secure route against its insecure twin *)

(** With the valid token, GET /user/:id/secure answers what GET /user/:id
    answers for the same request, less the [password] field: the same row,
    the same empty body when there is none, the same error page. *)
Theorem get_user_secure_is_get_user_without_password (req : Request)
    (c : Conn) :
  headers req !! "authorization" = Some bearer ->
  get_user_secure req fresh c =
    (without_password (get_user req fresh c).1, (get_user req fresh c).2).
Proof.
  intros Hh. unfold get_user_secure. rewrite guarded_admits by exact Hh.
  unfold get_user_secure_handler, get_user, select_user_public,
    select_user_star.
  destruct (bind1 (param req "id")) as [e | key]; [reflexivity|].
  destruct (find_user key c) as [u|]; reflexivity.
Qed.

Lemma prop_with_field (k : string) (v : value) (req : Request) :
  prop (body (with_field k v req)) k = v.
Proof. unfold prop, with_field. simpl. rewrite lookup_insert_eq. reflexivity. Qed.

Lemma prop_with_field_ne (k k' : string) (v : value) (req : Request) :
  k <> k' -> prop (body (with_field k v req)) k' = prop (body req) k'.
Proof.
  intros Hne. unfold prop, with_field. simpl.
  rewrite lookup_insert_ne by exact Hne. reflexivity.
Qed.

(** POST /post/secure is the filter, then POST /post/insecure: when
    [xss] returns a string for the [content] of the body, the route does
    what POST /post/insecure does on the body whose [content] is replaced
    by that string; when [xss] throws, it answers the 500 of the error
    handler and stores nothing.  The [userId] is taken as it comes by
    both. *)
Theorem post_secure_is_post_insecure_after_xss (req : Request)
    (res : Response) (c : Conn) :
  post_secure req res c =
    match xss (prop (body req) "content") with
    | inl e => (mkResponse 500 (Some ErrorPage), c)
    | inr txt => post_insecure (with_field "content" (VStr txt) req) res c
    end.
Proof.
  unfold post_secure, post_insecure.
  destruct (xss (prop (body req) "content")) as [e | txt]; [reflexivity|].
  rewrite prop_with_field, prop_with_field_ne by discriminate. reflexivity.
Qed.

(** For a string password, POST /register/secure is POST /register/insecure
    on the body whose [password] is replaced by [bcrypt.hash(password,
    10)]: hashing is all the secure route adds, and what the store holds
    after it is the hash where the insecure route would hold the
    password. *)
Theorem register_secure_is_register_insecure_after_hash (salt : string)
    (req : Request) (p : string) (res : Response) (c : Conn) :
  prop (body req) "password" = VStr p ->
  register_secure salt req res c =
    register_insecure
      (with_field "password" (VStr (bcrypt_hash p 10 salt)) req) res c.
Proof.
  intros Hp. unfold register_secure, register_insecure.
  rewrite prop_with_field, prop_with_field_ne by discriminate.
  rewrite Hp. reflexivity.
Qed.

End Server.

(** ** Closed instances *)

Lemma authMiddleware_gate_witness :
  headers (request_user "1" None) !! "authorization" <> Some bearer /\
  authMiddleware (request_user "1" None) fresh = Answered unauthorized.
Proof.
  assert (H : headers (request_user "1" None) !! "authorization" <> Some bearer)
    by (vm_compute; discriminate).
  split; [exact H|].
  exact (proj1 (proj2 (authMiddleware_gate (request_user "1" None) fresh) H)).
Defined.

(** C1 as the spec words it fails: without the header the body is not
    [{ "error": "Unauthorized" }]. *)
Lemma authMiddleware_body_not_Unauthorized :
  ~ (forall req : Request,
       headers req !! "authorization" <> Some "Bearer valid_token" ->
       authMiddleware req fresh =
         Answered (mkResponse 401
           (Some (Json (VObj [("error", VStr "Unauthorized")]))))).
Proof.
  intros H. specialize (H (request_user "1" None)).
  assert (Hn : headers (request_user "1" None) !! "authorization"
               <> Some "Bearer valid_token")
    by (vm_compute; discriminate).
  specialize (H Hn). vm_compute in H. discriminate H.
Qed.

Lemma get_user_not_found_witness :
  get_user (L := sample) (request_user "2" None) fresh db_alice
    = (ok_empty, db_alice).
Proof.
  refine (proj1 (get_user_not_found (L := sample) (request_user "2" None)
                   "2" db_alice _ _)).
  - vm_compute. reflexivity.
  - repeat constructor.
Defined.

Lemma get_user_secure_fields_witness :
  exists u,
    u ∈ users db_alice /\ selects (L := sample) "1" u = true /\
    get_user_secure (L := sample)
        (request_user "1" (Some "Bearer valid_token")) fresh db_alice =
      (ok_json (VObj [("id", to_js (L := sample) (SInt (u_id u)));
                      ("username", to_js (L := sample) (u_username u))]),
       db_alice) /\
    keys (VObj [("id", to_js (L := sample) (SInt (u_id u)));
                ("username", to_js (L := sample) (u_username u))])
      = ["id"; "username"].
Proof.
  refine (get_user_secure_fields (L := sample)
            (request_user "1" (Some "Bearer valid_token")) "1" db_alice
            _ _ _).
  - vm_compute. reflexivity.
  - vm_compute. reflexivity.
  - left. vm_compute. reflexivity.
Defined.

Lemma posts_routes_agree_witness :
  posts_insecure (L := sample) (request_posts "-07") fresh db_alice =
  Some (posts_secure (L := sample) (request_posts "-07") fresh db_alice).
Proof.
  refine (posts_routes_agree (L := sample) (request_posts "-07") "-07"
            db_alice _ _).
  - vm_compute. reflexivity.
  - vm_compute. eexists. reflexivity.
Defined.

Lemma register_insecure_stores_plaintext_witness :
  exists i,
    users db_alice = users db_empty ++ [mkUser i (SText "alice") (SText "pw123")] /\
    find_user (L := sample) (SInt i) db_alice =
      Some (mkUser i (SText "alice") (SText "pw123")).
Proof.
  refine (register_insecure_stores_plaintext (L := sample)
            (request_register "alice" "pw123") "alice" "pw123"
            (ok_json success) db_empty db_alice _ _ _ _).
  - vm_compute. reflexivity.
  - vm_compute. reflexivity.
  - vm_compute. reflexivity.
  - reflexivity.
Defined.

Lemma second_registration_fails_witness :
  register (L := sample) (Secure "salt") (request_register "alice" "other")
      fresh db_alice_img =
    (bad_request "UNIQUE constraint failed: users.username", db_alice_img).
Proof.
  refine (second_registration_fails (L := sample) Insecure (Secure "salt")
            (request_register "alice" "pw123")
            (request_register "alice" "other") "alice" "pw123" "other"
            (ok_json success) db_empty db_alice db_alice_img _ _ _ _ _ _ _).
  - vm_compute. reflexivity.
  - vm_compute. reflexivity.
  - vm_compute. reflexivity.
  - reflexivity.
  - refine (later_step db_alice POST_post_insecure ""
              (request_post (VNum 1) img) (ok_json success) db_alice_img
              db_alice_img _ (later_now _)).
    vm_compute. reflexivity.
  - vm_compute. reflexivity.
  - vm_compute. reflexivity.
Defined.

Lemma post_insecure_content_unmodified_witness :
  exists rows i,
    posts_insecure (L := sample) (request_posts "1") fresh db_alice_img =
      Some (ok_json (VArr rows), db_alice_img) /\
    VObj [("id", to_js (L := sample) (SInt i));
          ("user_id", to_js (L := sample) (SInt 1));
          ("content", VStr img)] ∈ rows.
Proof.
  refine (post_insecure_content_unmodified (L := sample)
            (request_post (VNum 1) img) (request_posts "1") (SReal (RNum 1))
            1 img "1" (ok_json success) db_alice db_alice_img db_alice_img
            _ _ _ _ _ _ _ _).
  - vm_compute. reflexivity.
  - reflexivity.
  - vm_compute. reflexivity.
  - vm_compute. reflexivity.
  - reflexivity.
  - apply later_now.
  - vm_compute. reflexivity.
  - vm_compute. reflexivity.
Defined.

Lemma post_needs_user_witness :
  (references (L := sample) (integer_affinity (L := sample) (SReal (RNum 1)))
     db_alice /\
   exists p c',
     p_user_id p = integer_affinity (L := sample) (SReal (RNum 1)) /\
     p_content p = SText img /\
     create_post (L := sample) Raw (request_post (VNum 1) img) fresh db_alice
       = (ok_json success, c') /\
     posts c' = posts db_alice ++ [p] /\
     forall c'', later (L := sample) c' c'' -> p ∈ posts c'') \/
  (~ references (L := sample)
       (integer_affinity (L := sample) (SReal (RNum 1))) db_alice /\
   create_post (L := sample) Raw (request_post (VNum 1) img) fresh db_alice
     = (error_page, db_alice)).
Proof.
  refine (post_needs_user (L := sample) Raw [alice] [] 1 0
            (request_post (VNum 1) img) (SReal (RNum 1)) img db_alice _ _ _).
  - apply later_now.
  - vm_compute. reflexivity.
  - vm_compute. reflexivity.
Defined.

(** C8 as the spec words it fails: on the connection of the server, with
    no user, the post of [{ userId: 99 }] is not created. *)
Lemma post_for_missing_user_refused :
  ~ (forall (req : Request) (key : sqlval) (txt : string),
       bind_value (prop (body req) "userId") = Some key ->
       prop (body req) "content" = VStr txt ->
       exists c',
         post_insecure (L := sample) req fresh (sqliteDb [] [] 0 0)
           = (ok_json success, c')).
Proof.
  intros H.
  destruct (H (request_post (VNum 99) img) (SReal (RNum 99)) img)
    as [c' Hc'].
  - vm_compute. reflexivity.
  - vm_compute. reflexivity.
  - vm_compute in Hc'. discriminate Hc'.
Qed.

(** *** Instances of the properties beyond the claims *)

Lemma later_alice_img : later (L := sample) db_alice db_alice_img.
Proof.
  refine (later_step db_alice POST_post_insecure "" (request_post (VNum 1) img)
            (ok_json success) db_alice_img db_alice_img _ (later_now _)).
  vm_compute. reflexivity.
Qed.

Lemma get_user_exposes_password_witness :
  exists u,
    u ∈ users db_alice /\ selects (L := sample) "1" u = true /\
    get_user (L := sample) (request_user "1" None) fresh db_alice =
      (ok_json (VObj [("id", to_js (L := sample) (SInt (u_id u)));
                      ("username", to_js (L := sample) (u_username u));
                      ("password", to_js (L := sample) (u_password u))]),
       db_alice).
Proof.
  refine (get_user_exposes_password (L := sample) (request_user "1" None) "1"
            db_alice _ _).
  - vm_compute. reflexivity.
  - left. vm_compute. reflexivity.
Defined.

Lemma register_then_get_user_witness :
  get_user (L := sample) (request_user "1" None) fresh db_alice_img =
    (ok_json (VObj [("id", VNum 1); ("username", VStr "alice");
                    ("password", VStr "pw123")]), db_alice_img).
Proof.
  refine (register_then_get_user (L := sample) Insecure
            (request_register "alice" "pw123") (request_user "1" None)
            "alice" "pw123" "1" (ok_json success) db_empty db_alice
            db_alice_img _ _ _ _ later_alice_img _ _).
  - vm_compute. reflexivity.
  - vm_compute. reflexivity.
  - vm_compute. reflexivity.
  - reflexivity.
  - vm_compute. reflexivity.
  - vm_compute. reflexivity.
Defined.

Lemma requests_only_append_witness :
  users db_alice `prefix_of` users db_alice_img /\
  posts db_alice `prefix_of` posts db_alice_img /\
  foreign_keys db_alice_img = foreign_keys db_alice.
Proof.
  exact (requests_only_append (L := sample) db_alice db_alice_img
           later_alice_img).
Defined.

Lemma usernames_stay_unique_witness :
  NoDup (username_texts db_alice_img).
Proof.
  refine (usernames_stay_unique (L := sample) db_alice db_alice_img
            later_alice_img _).
  vm_compute. repeat constructor; set_solver.
Defined.

Lemma ids_stay_distinct_witness :
  NoDup (u_id <$> users db_alice_img) /\ NoDup (p_id <$> posts db_alice_img).
Proof.
  refine (ids_stay_distinct (L := sample) db_alice db_alice_img
            later_alice_img _).
  vm_compute. split; repeat constructor; set_solver.
Defined.

Lemma register_succeeds_iff_free_witness :
  (register (L := sample) (Secure "salt") (request_register "bob" "pw")
     fresh db_alice).1 = ok_json success <->
  Forall (fun r => u_username r <> SText "bob") (users db_alice).
Proof.
  refine (register_succeeds_iff_free (L := sample) (Secure "salt")
            (request_register "bob" "pw") "bob" "pw" db_alice _ _).
  - vm_compute. reflexivity.
  - vm_compute. reflexivity.
Defined.

Lemma register_secure_rejects_non_string_witness :
  register_secure (L := sample) "salt" request_no_password fresh db_alice =
    (bad_request
       (message (@bcrypt_reject sample
                   (prop (body request_no_password) "password"))), db_alice).
Proof.
  refine (register_secure_rejects_non_string (L := sample) "salt"
            request_no_password db_alice _).
  intros p. vm_compute. discriminate.
Defined.

Lemma register_null_username_witness :
  register (L := sample) Insecure request_null_username fresh db_alice =
    (ok_json success,
     mkConn [alice; mkUser 2 SNull (SText "pw")] [] 2 0 true).
Proof.
  refine (register_null_username (L := sample) Insecure request_null_username
            "pw" db_alice _ _).
  - vm_compute. reflexivity.
  - vm_compute. reflexivity.
Defined.

Lemma post_secure_content_sanitized_witness :
  exists txt rows i,
    xss (L := sample) (prop (body (request_post (VNum 1) img)) "content")
      = inr txt /\
    posts_secure (L := sample) (request_posts "1") fresh db_alice_clean =
      (ok_json (VArr rows), db_alice_clean) /\
    VObj [("id", to_js (L := sample) (SInt i));
          ("user_id", to_js (L := sample) (SInt 1));
          ("content", VStr txt)] ∈ rows.
Proof.
  refine (post_secure_content_sanitized (L := sample)
            (request_post (VNum 1) img) (request_posts "1") (SReal (RNum 1))
            1 "1" (ok_json success) db_alice db_alice_clean db_alice_clean
            _ _ _ _ (later_now _) _ _).
  - vm_compute. reflexivity.
  - reflexivity.
  - vm_compute. reflexivity.
  - reflexivity.
  - vm_compute. reflexivity.
  - vm_compute. reflexivity.
Defined.

Lemma posts_secure_only_owner_witness :
  exists ps,
    posts_secure (L := sample) (request_posts "1") fresh db_alice_img =
      (ok_json (VArr (post_row (L := sample) <$> ps)), db_alice_img) /\
    ps `sublist_of` posts db_alice_img /\
    (forall p, p ∈ ps <->
       p ∈ posts db_alice_img /\
       sql_eq (L := sample) (p_user_id p) (SInt 1) = true) /\
    (forall p m, p ∈ ps -> p_user_id p = SInt m -> m = 1).
Proof.
  refine (posts_secure_only_owner (L := sample) (request_posts "1") "1" 1
            db_alice_img _ _).
  - vm_compute. reflexivity.
  - vm_compute. reflexivity.
Defined.

Lemma posts_of_unknown_owner_witness :
  posts_secure (L := sample) (request_posts "2") fresh db_alice_img =
    (ok_json (VArr []), db_alice_img) /\
  posts_insecure (L := sample) (request_posts "2") fresh db_alice_img =
    Some (ok_json (VArr []), db_alice_img).
Proof.
  refine (posts_of_unknown_owner (L := sample) (request_posts "2") "2"
            db_alice_img _ _ _).
  - vm_compute. reflexivity.
  - vm_compute. eexists. reflexivity.
  - repeat constructor.
Defined.

Lemma post_checked_when_enforced_witness :
  (Exists (fun u => u_id u = 99) (users db_alice_enforcing) /\
   (create_post (L := sample) Raw (request_post (VNum 99) img) fresh
      db_alice_enforcing).1 = ok_json success /\
   exists p,
     posts (create_post (L := sample) Raw (request_post (VNum 99) img) fresh
              db_alice_enforcing).2 = posts db_alice_enforcing ++ [p] /\
     p_user_id p = SInt 99) \/
  (Forall (fun u => u_id u <> 99) (users db_alice_enforcing) /\
   create_post (L := sample) Raw (request_post (VNum 99) img) fresh
     db_alice_enforcing = (error_page, db_alice_enforcing)).
Proof.
  refine (post_checked_when_enforced (L := sample) Raw
            (request_post (VNum 99) img) (SReal (RNum 99)) 99 img
            db_alice_enforcing _ _ _ _).
  - reflexivity.
  - vm_compute. reflexivity.
  - reflexivity.
  - vm_compute. reflexivity.
Defined.

Lemma get_user_secure_is_get_user_without_password_witness :
  get_user_secure (L := sample)
      (request_user "1" (Some "Bearer valid_token")) fresh db_alice =
    (ok_json (VObj [("id", VNum 1); ("username", VStr "alice")]), db_alice).
Proof.
  refine (get_user_secure_is_get_user_without_password (L := sample)
            (request_user "1" (Some "Bearer valid_token")) db_alice _).
  vm_compute. reflexivity.
Defined.

Lemma register_secure_is_register_insecure_after_hash_witness :
  register_secure (L := sample) "salt" (request_register "bob" "pw") fresh
      db_alice =
    register_insecure (L := sample)
      (with_field "password" (VStr (@bcrypt_hash sample "pw" 10 "salt"))
         (request_register "bob" "pw")) fresh db_alice.
Proof.
  refine (register_secure_is_register_insecure_after_hash (L := sample) "salt"
            (request_register "bob" "pw") "pw" fresh db_alice _).
  vm_compute. reflexivity.
Defined.

(** ** The scenarios of the specification, run on the model *)

Example scenario_register_then_read :
  app (L := sample) POST_register_insecure "" (request_register "alice" "pw123")
      db_empty = Some (ok_json success, db_alice) /\
  app (L := sample) GET_user_secure ""
      (request_user "1" (Some "Bearer valid_token")) db_alice =
    Some (ok_json (VObj [("id", VNum 1); ("username", VStr "alice")]), db_alice) /\
  app (L := sample) GET_user_secure "" (request_user "1" None) db_alice =
    Some (unauthorized, db_alice) /\
  app (L := sample) GET_user "" (request_user "1" None) db_alice =
    Some (ok_json (VObj [("id", VNum 1); ("username", VStr "alice");
                         ("password", VStr "pw123")]), db_alice).
Proof. vm_compute. repeat split. Qed.

Example scenario_post_then_list :
  app (L := sample) POST_post_insecure "" (request_post (VNum 1) img) db_alice
    = Some (ok_json success, db_alice_img) /\
  app (L := sample) GET_posts_insecure "" (request_posts "1") db_alice_img =
    Some (ok_json (VArr [VObj [("id", VNum 1); ("user_id", VNum 1);
                               ("content", VStr img)]]), db_alice_img).
Proof. vm_compute. repeat split. Qed.

Example scenario_injected_text_not_modelled :
  app (L := sample) GET_posts_insecure "" (request_posts "1 OR 1=1") db_alice_img
    = None.
Proof. vm_compute. reflexivity. Qed.
